(** * Direct chunk writes into an extensible HDF5 dataset

    A shallow embedding of the two sample programs

      - [direct_chunk_writer.c]   (module [Writer]: chunks are deflated by the
        caller with zlib's [compress2] and handed to [H5Dwrite_chunk]);
      - [direct_chunk_mt_fill.c]  (module [MtFill]: chunks are handed over raw).

    Both programs extend a one-dimensional dataset by one chunk per cycle and
    write the new chunk directly, until a SIGINT handler sets the [stop] flag.
    What [malloc], [calloc] and [compress2] answer is a parameter of the
    programs.

    Layout of the development: C integer model, the storage engine, the HDF5
    entry points the programs call, the two programs, the signal-driven
    control flow of [main]; then the lemmas. *)

From Stdlib Require Import ZArith List Lia Bool Floats.
From stdpp Require Import base option list gmap.

Set Warnings "-inexact-float".
Local Open Scope Z_scope.

(* ===================================================================== *)
(** ** C integers, as the programs use them (LP64: 64-bit [size_t], 32-bit
       [int], 8-bit [char]) *)
(* ===================================================================== *)

Module CInt.

(** [hsize_t], [uint64_t], [size_t] and [uLong] arithmetic wraps modulo 2^64. *)
Definition wrap64 (x : Z) : Z := x mod 2 ^ 64.

Definition INT_MAX : Z := 2147483647.
Definition INT_MIN : Z := -2147483648.

(** The conversion [(int)x] of an unsigned 64-bit value: the low 32 bits,
    read in two's complement (what GCC, Clang and MSVC define it to be). *)
Definition to_int (x : Z) : Z := (x + 2 ^ 31) mod 2 ^ 32 - 2 ^ 31.

Definition sizeof_int : Z := 4.
Definition sizeof_char : Z := 1.

(** The object representation of an [int]: four bytes (each a [Z] in
    [0, 256)), least significant first. *)
Definition int_to_bytes (v : Z) : list Z :=
  [ Z.land v 255;
    Z.land (Z.shiftr v 8) 255;
    Z.land (Z.shiftr v 16) 255;
    Z.land (Z.shiftr v 24) 255 ].

Definition bytes_to_int (b0 b1 b2 b3 : Z) : Z :=
  to_int (b0 + Z.shiftl b1 8 + Z.shiftl b2 16 + Z.shiftl b3 24).

(** An [int] array seen through a [char *] / [void *]. *)
Definition ints_to_bytes (l : list Z) : list Z := flat_map int_to_bytes l.

(** The reverse reading; [None] when the byte count is not a multiple of
    [sizeof(int)]. *)
Fixpoint bytes_to_ints (bs : list Z) : option (list Z) :=
  match bs with
  | [] => Some []
  | b0 :: b1 :: b2 :: b3 :: rest =>
      match bytes_to_ints rest with
      | Some l => Some (bytes_to_int b0 b1 b2 b3 :: l)
      | None => None
      end
  | _ => None
  end.

(** [(size_t)ceil(x)] for a binary64 [x]: the least integer not below [x].
    NaN and the infinities do not arise here and are mapped to 0. *)
Definition size_t_of_ceil (x : float) : Z :=
  match Prim2SF x with
  | S754_finite s m e =>
      if 0 <=? e then (if s then - (Z.pos m * 2 ^ e) else Z.pos m * 2 ^ e)
      else if s then - (Z.pos m / 2 ^ (- e))
      else - ((- Z.pos m) / 2 ^ (- e))
  | _ => 0
  end.

(** The usual arithmetic conversion of a [size_t] operand to [double]. *)
Definition size_t_to_double (n : Z) : float := PrimFloat.of_uint63 (Uint63.of_Z n).

End CInt.

(* ===================================================================== *)
(** ** The storage engine *)
(* ===================================================================== *)

Module Engine.

Inductive error : Set :=
| ConfigurationError
| ShrinkNotAllowed
| UnalignedOffset
| OutOfRange
| PayloadTooLarge
| AlreadyOpen.

(** Modelled from the spec: the chunk record of the data model (section 3);
    the storage engine is the HDF5 library, which the repository only calls.
    The offset is the key under which the chunk is indexed. *)
Record Chunk : Type := mkChunk {
  encoded_payload : list Z;
  filter_mask : Z
}.

(** Modelled from the spec: the dataset of the data model (section 3) with
    its chunk index (section 4.2); the HDF5 library is not part of the
    sources.  [element_width] is the width of the fixed-width element type. *)
Record Dataset : Type := mkDataset {
  logical_length : Z;
  chunk_size : Z;
  element_width : Z;
  fill_value : Z;
  index : gmap Z Chunk
}.

Definition Result : Type := error + Dataset.

(** Modelled from the spec: [raw_length] of section 3, chunk_size times the
    element width; the engine is absent from the sources. *)
Definition raw_length (ds : Dataset) : Z := chunk_size ds * element_width ds.

(** Modelled from the spec: [create] of section 4.1 (logical_length = 0,
    [ConfigurationError] if chunk_size = 0); the engine is absent from the
    sources. *)
Definition create (csize fill width : Z) : Result :=
  if csize =? 0 then inl ConfigurationError
  else inr {| logical_length := 0; chunk_size := csize; element_width := width;
              fill_value := fill; index := ∅ |}.

(** Modelled from the spec: [extend] of section 4.1 (fails with
    [ShrinkNotAllowed] if the new length is below the current one, otherwise
    updates logical_length; the newly covered range has no chunk and so reads
    as fill); the engine is absent from the sources. *)
Definition extend (ds : Dataset) (new_logical_length : Z) : Result :=
  if new_logical_length <? logical_length ds then inl ShrinkNotAllowed
  else inr {| logical_length := new_logical_length; chunk_size := chunk_size ds;
              element_width := element_width ds; fill_value := fill_value ds;
              index := index ds |}.

(** Modelled from the spec: [upsert] of section 4.2 (insert or replace the
    entry keyed by offset); the engine is absent from the sources. *)
Definition upsert (ds : Dataset) (offset : Z) (payload : list Z) (mask : Z) : Dataset :=
  {| logical_length := logical_length ds; chunk_size := chunk_size ds;
     element_width := element_width ds; fill_value := fill_value ds;
     index := <[ offset := mkChunk payload mask ]> (index ds) |}.

(** Modelled from the spec: [lookup] of section 4.2 (absence is not an
    error); the engine is absent from the sources. *)
Definition lookup (ds : Dataset) (offset : Z) : option Chunk := index ds !! offset.

(** Modelled from the spec: [write_chunk] of section 4.1.  It requires a
    chunk-aligned offset and offset + chunk_size <= logical_length, and fails
    with [PayloadTooLarge] when the payload exceeds the raw allocation budget
    while the filter mask says that no transform was skipped; validation comes
    strictly before mutation (section 7).  The engine is absent from the
    sources. *)
Definition write_chunk (ds : Dataset) (offset : Z) (payload : list Z) (mask : Z) : Result :=
  if negb (offset mod chunk_size ds =? 0) then inl UnalignedOffset
  else if logical_length ds <? offset + chunk_size ds then inl OutOfRange
  else if (raw_length ds <? Z.of_nat (length payload)) && (mask =? 0) then inl PayloadTooLarge
  else inr (upsert ds offset payload mask).

(** Modelled from the spec: what a reader sees at a chunk-aligned offset
    (section 8): the stored payload, or, for an absent chunk, [chunk_size]
    elements of the fill value.  [decode] is the inverse of the dataset's
    declared transform followed by the reading of the elements. *)
Definition read_chunk (decode : list Z -> option (list Z)) (ds : Dataset) (offset : Z)
  : option (list Z) :=
  match lookup ds offset with
  | Some c => decode (encoded_payload c)
  | None => Some (replicate (Z.to_nat (chunk_size ds)) (fill_value ds))
  end.

End Engine.

(* ===================================================================== *)
(** ** The HDF5 entry points the programs call *)
(* ===================================================================== *)

Module H5.

Definition herr_t : Type := Z.

(** An open dataset identifier stands for the dataset it refers to. *)
Definition hid_t : Type := Engine.Dataset.

(** Modelled from the spec: [H5Dset_extent] is the engine's [extend]
    (rank 1: the one new dimension); a negative value reports failure and
    leaves the dataset as it was.  Library code, absent from the sources. *)
Definition H5Dset_extent (did : hid_t) (new_dims : Z) : herr_t * hid_t :=
  match Engine.extend did new_dims with
  | inl _ => (-1, did)
  | inr did' => (0, did')
  end.

(** Modelled from the spec: [H5Dwrite_chunk] is the engine's [write_chunk]
    on the first [data_size] bytes found at [buf]; a negative value reports
    failure and leaves the dataset as it was.  Library code, absent from the
    sources. *)
Definition H5Dwrite_chunk (did : hid_t) (filters : Z) (offset : Z)
  (data_size : Z) (buf : list Z) : herr_t * hid_t :=
  match Engine.write_chunk did offset (take (Z.to_nat data_size) buf) filters with
  | inl _ => (-1, did)
  | inr did' => (0, did')
  end.

End H5.

(** The argument list of one [H5Dwrite_chunk] call (the dataset and the
    default transfer property list apart). *)
Record write_chunk_call : Type := mkCall {
  wc_filters : Z;
  wc_offset : Z;
  wc_data_size : Z;
  wc_buf : list Z
}.

Definition issue (did : H5.hid_t) (c : write_chunk_call) : H5.herr_t * H5.hid_t :=
  H5.H5Dwrite_chunk did (wc_filters c) (wc_offset c) (wc_data_size c) (wc_buf c).

(** The payload a call hands to the storage layer: [data_size] bytes at [buf]. *)
Definition handed_payload (c : write_chunk_call) : list Z :=
  take (Z.to_nat (wc_data_size c)) (wc_buf c).

(* ===================================================================== *)
(** ** The C allocator and zlib's return codes *)
(* ===================================================================== *)

Module Libc.

(** What the allocator answers is not the programs' doing; it is a parameter
    of theirs.  [heap offset n] tells whether an allocation of [n] bytes made
    by the call of [direct_write] for [offset] succeeds; when it does not,
    [malloc] and [calloc] return [NULL]. *)
Definition heap_t : Type := Z -> Z -> bool.

(** An allocator that never runs out of memory. *)
Definition plentiful : heap_t := fun _ _ => true.

(** [malloc(n)] seen as an [int] array; [None] is [NULL].  The contents are
    indeterminate in C; 0 stands for them here, and the programs overwrite
    every element before they read any (lemma [fill_loop_any]). *)
Definition malloc_ints (available : Z -> bool) (nbytes : Z) : option (list Z) :=
  if available nbytes then Some (replicate (Z.to_nat (nbytes / CInt.sizeof_int)) 0)
  else None.

(** [calloc(nmemb, size)]: zero-initialised bytes; [None] is [NULL]. *)
Definition calloc (available : Z -> bool) (nmemb size : Z) : option (list Z) :=
  if available (nmemb * size) then Some (replicate (Z.to_nat (nmemb * size)) 0)
  else None.

(** A callee that writes [written] at the start of the buffer [dest]; the
    buffer keeps its size. *)
Definition store_at_start (written dest : list Z) : list Z :=
  take (length dest) (written ++ drop (length written) dest).

End Libc.

Module Zlib.

Definition Z_OK : Z := 0.
Definition Z_STREAM_ERROR : Z := -2.
Definition Z_MEM_ERROR : Z := -4.
Definition Z_BUF_ERROR : Z := -5.

(** [compress2(dest, &destLen, source, sourceLen, level)] is zlib's; the
    programs are parametric in it.  It receives the capacity of [dest], the
    source bytes, their count and the level, and returns its status with the
    bytes it has put at the start of [dest], whose count it leaves in
    [destLen]. *)
Definition compress2_t : Type := Z -> list Z -> Z -> Z -> Z * list Z.

(** The output bound the [compress2] documentation gives for a source of [n]
    bytes: 0.1% larger than the source, plus 12 bytes. *)
Definition compress_bound (n : Z) : Z := (n * 1001 + 999) / 1000 + 12.

(** [compress2] keeps the documented bound: with that much room in [dest] it
    never reports [Z_BUF_ERROR]. *)
Definition respects_bound (compress2 : compress2_t) : Prop :=
  forall destLen source level,
    compress_bound (Z.of_nat (length source)) <= destLen ->
    fst (compress2 destLen source (Z.of_nat (length source)) level) <> Z_BUF_ERROR.

End Zlib.

(* ===================================================================== *)
(** ** The production loop of [main] and the SIGINT handler

    The two programs have the same [main]; it is written once here, over the
    program's own [CHUNK_SIZE], [extend_dataset] and [direct_write]. *)
(* ===================================================================== *)

Module Main.

(** The variables of [main] that live across iterations. *)
Record main_state : Type := mkState {
  n_chunks : Z;
  did : H5.hid_t
}.

(** Program points of the loop. *)
Inductive pc : Set :=
| AtWhile      (* the test of [while (!stop)] *)
| AtExtend     (* before [extend_dataset(did, new_size)] *)
| AtWrite      (* before [direct_write(did, write_offset)] *)
| AtSleep      (* [n_chunks += 1] done, in [sleep(1)] *)
| AtDone       (* left the loop normally *)
| AtBadness.   (* [goto badness] *)

Record config : Type := mkConfig {
  at_pc : pc;
  stop : Z;
  vars : main_state
}.

(** What happens next: the program takes a step, or SIGINT is delivered and
    [ctrl_c_handler] runs. *)
Inductive event : Set := Tick | Sigint.

(** [ctrl_c_handler]: [stop = 1]. *)
Definition ctrl_c_handler (c : config) : config :=
  {| at_pc := at_pc c; stop := 1; vars := vars c |}.

Definition goto (p : pc) (c : config) (st : main_state) : config :=
  {| at_pc := p; stop := stop c; vars := st |}.

Section Loop.

Variable CHUNK_SIZE : Z.
Variable extend_dataset : H5.hid_t -> Z -> H5.herr_t * H5.hid_t.
Variable direct_write : H5.hid_t -> Z -> H5.herr_t * H5.hid_t.

(** [hsize_t write_offset = n_chunks * CHUNK_SIZE;] *)
Definition write_offset (st : main_state) : Z := CInt.wrap64 (n_chunks st * CHUNK_SIZE).

(** [hsize_t new_size = (n_chunks + 1) * CHUNK_SIZE;] *)
Definition new_size (st : main_state) : Z := CInt.wrap64 ((n_chunks st + 1) * CHUNK_SIZE).

(** One iteration of the loop body; a negative status is [goto badness]. *)
Definition loop_body (st : main_state) : H5.herr_t * main_state :=
  let '(r1, d1) := extend_dataset (did st) (new_size st) in
  if r1 <? 0 then (r1, {| n_chunks := n_chunks st; did := d1 |})
  else
    let '(r2, d2) := direct_write d1 (write_offset st) in
    if r2 <? 0 then (r2, {| n_chunks := n_chunks st; did := d2 |})
    else (0, {| n_chunks := CInt.wrap64 (n_chunks st + 1); did := d2 |}).

(** [N] iterations with [stop] clear, up to the first failure. *)
Fixpoint run_cycles (N : nat) (st : main_state) : H5.herr_t * main_state :=
  match N with
  | O => (0, st)
  | S N' =>
      let '(r, st') := loop_body st in
      if r <? 0 then (r, st') else run_cycles N' st'
  end.

(** The same loop, one program point at a time. *)
Definition step (c : config) : config :=
  match at_pc c with
  | AtWhile => if stop c =? 0 then goto AtExtend c (vars c) else goto AtDone c (vars c)
  | AtExtend =>
      let '(r, d) := extend_dataset (did (vars c)) (new_size (vars c)) in
      let st := {| n_chunks := n_chunks (vars c); did := d |} in
      if r <? 0 then goto AtBadness c st else goto AtWrite c st
  | AtWrite =>
      let '(r, d) := direct_write (did (vars c)) (write_offset (vars c)) in
      if r <? 0 then goto AtBadness c {| n_chunks := n_chunks (vars c); did := d |}
      else goto AtSleep c {| n_chunks := CInt.wrap64 (n_chunks (vars c) + 1); did := d |}
  | AtSleep => goto AtWhile c (vars c)
  | AtDone => c
  | AtBadness => c
  end.

Definition deliver (c : config) (e : event) : config :=
  match e with
  | Tick => step c
  | Sigint => ctrl_c_handler c
  end.

Definition run (c : config) (es : list event) : config := fold_left deliver es c.

(** The number of iterations entered along a run: the steps on which the
    loop test finds [stop] clear. *)
Fixpoint cycles_started (c : config) (es : list event) : nat :=
  match es with
  | [] => O
  | e :: es' =>
      let here :=
        match e, at_pc c with
        | Tick, AtWhile => if stop c =? 0 then 1%nat else 0%nat
        | _, _ => 0%nat
        end in
      (here + cycles_started (deliver c e) es')%nat
  end.

End Loop.

(** [main] enters the loop with [stop] clear (a zero-initialised global) and
    no chunk written. *)
Definition initial (d : H5.hid_t) : config :=
  {| at_pc := AtWhile; stop := 0; vars := {| n_chunks := 0; did := d |} |}.

(** The number of program steps among the events. *)
Fixpoint ticks (es : list event) : nat :=
  match es with
  | [] => O
  | Tick :: es' => S (ticks es')
  | Sigint :: es' => ticks es'
  end.

Definition halted (c : config) : Prop := at_pc c = AtDone \/ at_pc c = AtBadness.

(** How many program steps a program point is away from leaving the loop
    once [stop] is set. *)
Definition steps_to_exit (p : pc) : nat :=
  match p with
  | AtExtend => 4
  | AtWrite => 3
  | AtSleep => 2
  | AtWhile => 1
  | AtDone => 0
  | AtBadness => 0
  end.

(** The chunk a call stores when the engine accepts it. *)
Definition chunk_of_call (c : write_chunk_call) : Engine.Chunk :=
  Engine.mkChunk (handed_payload c) (wc_filters c).

(** No torn chunk: every chunk in the index is, whole, the chunk that the
    program's [direct_write] hands over for that offset. *)
Definition untorn (args : Z -> option write_chunk_call) (d : H5.hid_t) : Prop :=
  forall o ch, Engine.lookup d o = Some ch ->
    exists c, args o = Some c /\ ch = chunk_of_call c.

End Main.

(* ===================================================================== *)
(** ** direct_chunk_mt_fill.c *)
(* ===================================================================== *)

Module MtFill.

Definition CHUNK_SIZE : Z := 10.
Definition FILL_VALUE : Z := -1.
Definition SUCCEED : Z := 0.
Definition FAIL : Z := -1.

(** [setup]: an empty, unlimited, chunked [int] dataset with the fill value.
    [None] is the [badness] exit. *)
Definition setup : option H5.hid_t :=
  match Engine.create CHUNK_SIZE FILL_VALUE CInt.sizeof_int with
  | inr d => Some d
  | inl _ => None
  end.

Definition extend_dataset (did : H5.hid_t) (size : Z) : H5.herr_t * H5.hid_t :=
  let new_dims := size in
  let '(r, did') := H5.H5Dset_extent did new_dims in
  if r <? 0 then (FAIL, did') else (SUCCEED, did').

(** [for (int i = 0; i < CHUNK_SIZE; i++) buf[i] = value;] *)
Definition fill_loop (value : Z) (buf : list Z) : list Z :=
  fold_left (fun b i => <[ i := value ]> b) (seq 0 (Z.to_nat CHUNK_SIZE)) buf.

Definition buf_size : Z := CInt.wrap64 (CHUNK_SIZE * CInt.sizeof_int).

(** The value the chunk is filled with, [(int)(offset / CHUNK_SIZE)], and
    the test made on it, [value > INT_MAX]. *)
Definition chunk_value (offset : Z) : Z := CInt.to_int (offset / CHUNK_SIZE).
Definition too_many_chunks (offset : Z) : bool := chunk_value offset >? CInt.INT_MAX.

Section WithLibc.

Variable heap : Libc.heap_t.

(** [direct_write] up to its [H5Dwrite_chunk] call: the arguments of the
    call, or [None] when control goes to [badness] before it (the test on
    [value], or [malloc] returning [NULL]). *)
Definition direct_write_args (offset : Z) : option write_chunk_call :=
  let filter_mask := 0 in
  let value := chunk_value offset in
  if too_many_chunks offset then None
  else
    match Libc.malloc_ints (heap offset) (CInt.wrap64 (buf_size * CInt.sizeof_char)) with
    | None => None
    | Some buf0 =>
        let buf := fill_loop value buf0 in
        Some {| wc_filters := filter_mask; wc_offset := offset;
                wc_data_size := buf_size; wc_buf := CInt.ints_to_bytes buf |}
    end.

Definition direct_write (did : H5.hid_t) (offset : Z) : H5.herr_t * H5.hid_t :=
  match direct_write_args offset with
  | None => (FAIL, did)
  | Some c =>
      let '(r, did') := issue did c in
      if r <? 0 then (FAIL, did') else (SUCCEED, did')
  end.

Definition loop_body : Main.main_state -> H5.herr_t * Main.main_state :=
  Main.loop_body CHUNK_SIZE extend_dataset direct_write.

Definition run_cycles : nat -> Main.main_state -> H5.herr_t * Main.main_state :=
  Main.run_cycles CHUNK_SIZE extend_dataset direct_write.

Definition run : Main.config -> list Main.event -> Main.config :=
  Main.run CHUNK_SIZE extend_dataset direct_write.

Definition cycles_started : Main.config -> list Main.event -> nat :=
  Main.cycles_started CHUNK_SIZE extend_dataset direct_write.

End WithLibc.

(** The dataset [setup] leaves behind and [main] reopens. *)
Definition dataset0 : H5.hid_t :=
  {| Engine.logical_length := 0; Engine.chunk_size := CHUNK_SIZE;
     Engine.element_width := CInt.sizeof_int; Engine.fill_value := FILL_VALUE;
     Engine.index := ∅ |}.

(** The dataset declares no filter: the stored bytes are the elements. *)
Definition read_chunk (d : H5.hid_t) (offset : Z) : option (list Z) :=
  Engine.read_chunk CInt.bytes_to_ints d offset.

End MtFill.

(* ===================================================================== *)
(** ** direct_chunk_writer.c *)
(* ===================================================================== *)

Module Writer.

Definition CHUNK_SIZE : Z := 10.
Definition COMPRESSION_LEVEL : Z := 5.
Definition FILL_VALUE : Z := -1.
Definition SUCCEED : Z := 0.
Definition FAIL : Z := -1.

(** [setup]: as in the other program, with the deflate filter declared on
    the dataset. *)
Definition setup : option H5.hid_t :=
  match Engine.create CHUNK_SIZE FILL_VALUE CInt.sizeof_int with
  | inr d => Some d
  | inl _ => None
  end.

Definition extend_dataset (did : H5.hid_t) (size : Z) : H5.herr_t * H5.hid_t :=
  let new_dims := size in
  let '(r, did') := H5.H5Dset_extent did new_dims in
  if r <? 0 then (FAIL, did') else (SUCCEED, did').

Definition fill_loop (value : Z) (buf : list Z) : list Z :=
  fold_left (fun b i => <[ i := value ]> b) (seq 0 (Z.to_nat CHUNK_SIZE)) buf.

Definition buf_size : Z := CInt.wrap64 (CHUNK_SIZE * CInt.sizeof_int).

(** [(size_t)ceil(buf_size * 1.001) + 12], the product taken in binary64. *)
Definition buf_out_size : Z :=
  CInt.wrap64 (CInt.size_t_of_ceil (CInt.size_t_to_double buf_size * 1.001)%float + 12).

(** The value the chunk is filled with, [(int)(offset / CHUNK_SIZE)], and
    the test made on it, [value > INT_MAX]. *)
Definition chunk_value (offset : Z) : Z := CInt.to_int (offset / CHUNK_SIZE).
Definition too_many_chunks (offset : Z) : bool := chunk_value offset >? CInt.INT_MAX.

(** How [direct_write] leaves, or what it passes to [H5Dwrite_chunk]. *)
Inductive encode_outcome : Type :=
| TooManyChunks
| NoBuffer          (* [malloc] returned [NULL] *)
| NoOutputBuffer    (* [calloc] returned [NULL] *)
| Overflow
| DeflateMemoryError
| OtherDeflateError
| LargerThanChunk (z_destLen : Z)
| Call (c : write_chunk_call).

Section WithLibraries.

Variable heap : Libc.heap_t.
Variable compress2 : Zlib.compress2_t.

Definition encode_chunk (offset : Z) : encode_outcome :=
  let filter_mask := 0 in
  let value := chunk_value offset in
  if too_many_chunks offset then TooManyChunks
  else
    match Libc.malloc_ints (heap offset) (CInt.wrap64 (buf_size * CInt.sizeof_char)) with
    | None => NoBuffer
    | Some buf0 =>
        let buf := fill_loop value buf0 in
        match Libc.calloc (heap offset) buf_out_size CInt.sizeof_char with
        | None => NoOutputBuffer
        | Some buf_out =>
            let z_source := CInt.ints_to_bytes buf in
            let z_sourceLen := CInt.wrap64 (CHUNK_SIZE * CInt.sizeof_int) in
            let '(z_ret, written) :=
              compress2 buf_out_size z_source z_sourceLen COMPRESSION_LEVEL in
            let z_dest := Libc.store_at_start written buf_out in
            let z_destLen := Z.of_nat (length written) in
            if z_ret =? Zlib.Z_BUF_ERROR then Overflow
            else if z_ret =? Zlib.Z_MEM_ERROR then DeflateMemoryError
            else if negb (z_ret =? Zlib.Z_OK) then OtherDeflateError
            else if z_destLen >? buf_size then LargerThanChunk z_destLen
            else Call {| wc_filters := filter_mask; wc_offset := offset;
                         wc_data_size := buf_out_size; wc_buf := z_dest |}
        end
    end.

Definition direct_write_args (offset : Z) : option write_chunk_call :=
  match encode_chunk offset with
  | Call c => Some c
  | _ => None
  end.

Definition direct_write (did : H5.hid_t) (offset : Z) : H5.herr_t * H5.hid_t :=
  match direct_write_args offset with
  | None => (FAIL, did)
  | Some c =>
      let '(r, did') := issue did c in
      if r <? 0 then (FAIL, did') else (SUCCEED, did')
  end.

Definition loop_body : Main.main_state -> H5.herr_t * Main.main_state :=
  Main.loop_body CHUNK_SIZE extend_dataset direct_write.

Definition run_cycles : nat -> Main.main_state -> H5.herr_t * Main.main_state :=
  Main.run_cycles CHUNK_SIZE extend_dataset direct_write.

Definition run : Main.config -> list Main.event -> Main.config :=
  Main.run CHUNK_SIZE extend_dataset direct_write.

Definition cycles_started : Main.config -> list Main.event -> nat :=
  Main.cycles_started CHUNK_SIZE extend_dataset direct_write.

End WithLibraries.

(** The dataset [setup] leaves behind and [main] reopens. *)
Definition dataset0 : H5.hid_t :=
  {| Engine.logical_length := 0; Engine.chunk_size := CHUNK_SIZE;
     Engine.element_width := CInt.sizeof_int; Engine.fill_value := FILL_VALUE;
     Engine.index := ∅ |}.

End Writer.

(* ===================================================================== *)
(** ** A stand-in codec and the vocabulary of the results *)
(* ===================================================================== *)

(** A small lossless codec with the calling convention of [compress2], used
    to run [Writer] on concrete inputs: a tag byte, then either run-length
    pairs (count, byte) or, when those would not be shorter, the source as it
    is.  It never needs more than one byte over the source. *)
Module RunLength.

Fixpoint rle (l : list Z) : list Z :=
  match l with
  | [] => []
  | b :: l' =>
      match rle l' with
      | n :: b' :: r => if b =? b' then (n + 1) :: b' :: r else 1 :: b :: n :: b' :: r
      | _ => [1; b]
      end
  end.

Definition deflate (source : list Z) : list Z :=
  let packed := rle source in
  if (length packed <? length source)%nat then 1 :: packed else 0 :: source.

Definition compress2 : Zlib.compress2_t :=
  fun destLen source sourceLen level =>
    let out := deflate source in
    if destLen <? Z.of_nat (length out) then (Zlib.Z_BUF_ERROR, [])
    else (Zlib.Z_OK, out).

End RunLength.

Module Results.

(** The raw chunk [direct_write] of [MtFill] builds for chunk number [k]:
    [CHUNK_SIZE] copies of [(int)k], as bytes, with filter mask 0. *)
Definition raw_chunk (k : Z) : Engine.Chunk :=
  Engine.mkChunk
    (CInt.ints_to_bytes (replicate (Z.to_nat MtFill.CHUNK_SIZE) (CInt.to_int k))) 0.

(** The chunk index of [MtFill] after [N] successful cycles. *)
Fixpoint chunks_upto (N : nat) : gmap Z Engine.Chunk :=
  match N with
  | O => ∅
  | S n => <[ Z.of_nat n * MtFill.CHUNK_SIZE := raw_chunk (Z.of_nat n) ]> (chunks_upto n)
  end.

(** The dataset of [MtFill] after [N] successful cycles. *)
Definition dataset_after (N : nat) : H5.hid_t :=
  {| Engine.logical_length := Z.of_nat N * MtFill.CHUNK_SIZE;
     Engine.chunk_size := MtFill.CHUNK_SIZE;
     Engine.element_width := CInt.sizeof_int;
     Engine.fill_value := MtFill.FILL_VALUE;
     Engine.index := chunks_upto N |}.

(** The dataset of either program with [len] elements and no chunk written. *)
Definition unwritten (len : Z) : H5.hid_t :=
  {| Engine.logical_length := len;
     Engine.chunk_size := 10;
     Engine.element_width := CInt.sizeof_int;
     Engine.fill_value := -1;
     Engine.index := ∅ |}.

(** A run of [extend_dataset] calls, whatever their outcome. *)
Definition extend_calls (d : H5.hid_t) (sizes : list Z) : H5.hid_t :=
  fold_left (fun d size => snd (MtFill.extend_dataset d size)) sizes d.

(** What a reader can observe of a dataset: its length and, per offset, the
    stored chunk (or its absence, which reads as fill). *)
Definition observable (d : H5.hid_t) : Z * (Z -> option Engine.Chunk) * Z :=
  (Engine.logical_length d, Engine.lookup d, Engine.fill_value d).

(** The shape both programs give their dataset. *)
Definition demo_dataset (d : H5.hid_t) : Prop :=
  Engine.chunk_size d = 10 /\ Engine.element_width d = 4.

(** The two programs, each with the allocator it runs on; [Writer] comes
    with the [compress2] it is linked to as well. *)
Inductive program : Type :=
| mt_fill (heap : Libc.heap_t)
| writer (heap : Libc.heap_t) (compress2 : Zlib.compress2_t).

Definition args_of (p : program) : Z -> option write_chunk_call :=
  match p with
  | mt_fill h => MtFill.direct_write_args h
  | writer h z => Writer.direct_write_args h z
  end.

Definition direct_write_of (p : program) : H5.hid_t -> Z -> H5.herr_t * H5.hid_t :=
  match p with
  | mt_fill h => MtFill.direct_write h
  | writer h z => Writer.direct_write h z
  end.

Definition loop_body_of (p : program) : Main.main_state -> H5.herr_t * Main.main_state :=
  match p with
  | mt_fill h => MtFill.loop_body h
  | writer h z => Writer.loop_body h z
  end.

Definition run_of (p : program) : Main.config -> list Main.event -> Main.config :=
  match p with
  | mt_fill h => MtFill.run h
  | writer h z => Writer.run h z
  end.

Definition cycles_started_of (p : program) : Main.config -> list Main.event -> nat :=
  match p with
  | mt_fill h => MtFill.cycles_started h
  | writer h z => Writer.cycles_started h z
  end.

Definition step_of (p : program) : Main.config -> Main.config :=
  Main.step 10 MtFill.extend_dataset (direct_write_of p).

(** [main] of either program at the loop, after a successful [setup]. *)
Definition start : Main.config := Main.initial MtFill.dataset0.

(** What holds of the variables of [main] at each program point. *)
Definition loop_invariant (c : Main.config) : Prop :=
  let n := Main.n_chunks (Main.vars c) in
  let d := Main.did (Main.vars c) in
  Engine.chunk_size d = 10 /\ Engine.element_width d = 4 /\
  (Main.stop c = 0 \/ Main.stop c = 1) /\
  0 <= n /\
  match Main.at_pc c with
  | Main.AtWrite => Engine.logical_length d = (n + 1) * 10 /\ (n + 1) * 10 < 2 ^ 64
  | Main.AtBadness => True
  | _ => Engine.logical_length d = n * 10 /\ n * 10 < 2 ^ 64
  end.

End Results.

(* ===================================================================== *)
(** ** [setup] and [main] as sequences of library calls *)
(* ===================================================================== *)

Module Calls.

(** The HDF5 calls of [setup] and of [main] outside the loop, one name per
    call and identifier. *)
Inductive h5_call : Set :=
| Pcreate_fapl          (* fapl_id = H5Pcreate(H5P_FILE_ACCESS) *)
| Pset_libver_bounds    (* H5Pset_libver_bounds(fapl_id, ...) *)
| Fcreate               (* fid = H5Fcreate(FILE_NAME, ...) *)
| Screate_simple        (* sid = H5Screate_simple(RANK, ...) *)
| Pcreate_dcpl          (* dcpl_id = H5Pcreate(H5P_DATASET_CREATE) *)
| Pset_chunk            (* H5Pset_chunk(dcpl_id, RANK, chunk_dims) *)
| Pset_deflate          (* H5Pset_deflate(dcpl_id, COMPRESSION_LEVEL) *)
| Pset_fill_value       (* H5Pset_fill_value(dcpl_id, ...) *)
| Dcreate2              (* did = H5Dcreate2(fid, DSET_NAME, ...) *)
| Pclose_fapl           (* H5Pclose(fapl_id) *)
| Fclose_fid            (* H5Fclose(fid) *)
| Sclose_sid            (* H5Sclose(sid) *)
| Pclose_dcpl           (* H5Pclose(dcpl_id) *)
| Dclose_did            (* H5Dclose(did) *)
| Fopen                 (* fid = H5Fopen(FILE_NAME, ...) in main *)
| Dopen2                (* did = H5Dopen2(fid, DSET_NAME, ...) in main *)
| Fclose_main           (* H5Fclose(fid) after the loop of main *)
| Dclose_main.          (* H5Dclose(did) after the loop of main *)

(** How the code tests what a call returned. *)
Inductive test : Set :=
| IsInvalidHid   (* [== H5I_INVALID_HID] *)
| IsNegative     (* [< 0] *)
| IsNonzero.     (* used as the condition itself *)

Definition H5I_INVALID_HID : Z := -1.
Definition EXIT_SUCCESS : Z := 0.
Definition EXIT_FAILURE : Z := 1.

(** Does the test send control to [badness]? *)
Definition failed (t : test) (r : Z) : bool :=
  match t with
  | IsInvalidHid => r =? H5I_INVALID_HID
  | IsNegative => r <? 0
  | IsNonzero => negb (r =? 0)
  end.

(** A chain of [if (call fails) goto badness;] statements: the calls made,
    in order, and whether the end of the chain was reached.  [ret] is what
    the library returns for each call. *)
Fixpoint attempt (ret : h5_call -> Z) (body : list (h5_call * test)) : bool * list h5_call :=
  match body with
  | [] => (true, [])
  | (c, t) :: rest =>
      if failed t (ret c) then (false, [c])
      else let '(ok, tr) := attempt ret rest in (ok, c :: tr)
  end.

(** The [badness] block of [setup]: the five closes, their results ignored
    (errors are muted by [H5E_BEGIN_TRY]). *)
Definition setup_badness : list h5_call :=
  [Pclose_fapl; Fclose_fid; Sclose_sid; Pclose_dcpl; Dclose_did].

(** The closes at the end of [setup]'s normal path. *)
Definition setup_shutdown : list (h5_call * test) :=
  [(Pclose_fapl, IsNegative); (Fclose_fid, IsNegative); (Sclose_sid, IsNegative);
   (Pclose_dcpl, IsNegative); (Dclose_did, IsNegative)].

(** The body of [setup] in direct_chunk_writer.c. *)
Definition writer_setup_body : list (h5_call * test) :=
  [(Pcreate_fapl, IsInvalidHid); (Pset_libver_bounds, IsNonzero);
   (Fcreate, IsInvalidHid); (Screate_simple, IsInvalidHid);
   (Pcreate_dcpl, IsInvalidHid); (Pset_chunk, IsNegative); (Pset_deflate, IsNegative);
   (Pset_fill_value, IsNegative); (Dcreate2, IsInvalidHid)] ++ setup_shutdown.

(** The body of [setup] in direct_chunk_mt_fill.c: no deflate filter. *)
Definition mt_fill_setup_body : list (h5_call * test) :=
  [(Pcreate_fapl, IsInvalidHid); (Pset_libver_bounds, IsNonzero);
   (Fcreate, IsInvalidHid); (Screate_simple, IsInvalidHid);
   (Pcreate_dcpl, IsInvalidHid); (Pset_chunk, IsNegative);
   (Pset_fill_value, IsNegative); (Dcreate2, IsInvalidHid)] ++ setup_shutdown.

Definition setup_body (p : Results.program) : list (h5_call * test) :=
  match p with
  | Results.mt_fill _ => mt_fill_setup_body
  | Results.writer _ _ => writer_setup_body
  end.

(** [setup]: its status and the library calls it has made. *)
Definition setup (p : Results.program) (ret : h5_call -> Z) : H5.herr_t * list h5_call :=
  let '(ok, tr) := attempt ret (setup_body p) in
  if ok then (0, tr) else (-1, tr ++ setup_badness).

(** [main]: the exit status and the library calls made outside the loop, once
    the program has ended; [None] while the loop is still running after the
    events [es]. *)
Definition main (p : Results.program) (ret : h5_call -> Z) (es : list Main.event)
  : option (Z * list h5_call) :=
  let '(r, tr) := setup p ret in
  if r <? 0 then Some (EXIT_FAILURE, tr)
  else if ret Fopen =? H5I_INVALID_HID then Some (EXIT_FAILURE, tr ++ [Fopen])
  else if ret Dopen2 =? H5I_INVALID_HID then Some (EXIT_FAILURE, tr ++ [Fopen; Dopen2])
  else
    let opened := tr ++ [Fopen; Dopen2] in
    match Main.at_pc (Results.run_of p Results.start es) with
    | Main.AtDone =>
        if ret Fclose_main <? 0 then Some (EXIT_FAILURE, opened ++ [Fclose_main])
        else if ret Dclose_main <? 0
             then Some (EXIT_FAILURE, opened ++ [Fclose_main; Dclose_main])
        else Some (EXIT_SUCCESS, opened ++ [Fclose_main; Dclose_main])
    | Main.AtBadness => Some (EXIT_FAILURE, opened)
    | _ => None
    end.

End Calls.

(* ===================================================================== *)
(** ** Counting the cycles of the loop *)
(* ===================================================================== *)

Module Accounting.

Section Loop.

Variable CHUNK_SIZE : Z.
Variable extend_dataset : H5.hid_t -> Z -> H5.herr_t * H5.hid_t.
Variable direct_write : H5.hid_t -> Z -> H5.herr_t * H5.hid_t.

(** The number of iterations completed along a run: the steps on which
    [direct_write] returns without failure, just before [n_chunks += 1]. *)
Fixpoint cycles_completed (c : Main.config) (es : list Main.event) : nat :=
  match es with
  | [] => O
  | e :: es' =>
      let here :=
        match e, Main.at_pc c with
        | Main.Tick, Main.AtWrite =>
            if fst (direct_write (Main.did (Main.vars c))
                      (Main.write_offset CHUNK_SIZE (Main.vars c))) <? 0
            then 0%nat else 1%nat
        | _, _ => 0%nat
        end in
      (here + cycles_completed (Main.deliver CHUNK_SIZE extend_dataset direct_write c e) es')%nat
  end.

(** The number of [extend_dataset] and [direct_write] calls made along a
    run: the program steps taken at the one call or the other. *)
Fixpoint calls_made (c : Main.config) (es : list Main.event) : nat :=
  match es with
  | [] => O
  | e :: es' =>
      let here :=
        match e, Main.at_pc c with
        | Main.Tick, Main.AtExtend => 1%nat
        | Main.Tick, Main.AtWrite => 1%nat
        | _, _ => 0%nat
        end in
      (here + calls_made (Main.deliver CHUNK_SIZE extend_dataset direct_write c e) es')%nat
  end.

End Loop.

(** Is a cycle under way (or broken off) at this program point? *)
Definition in_cycle (p : Main.pc) : nat :=
  match p with
  | Main.AtExtend => 1
  | Main.AtWrite => 1
  | Main.AtBadness => 1
  | _ => 0
  end.

End Accounting.

(* ===================================================================== *)
(** * Results *)
(* ===================================================================== *)

Import Main.

(** ** C integers *)

Section CIntFacts.

Lemma to_int_range (x : Z) : CInt.INT_MIN <= CInt.to_int x <= CInt.INT_MAX.
Proof.
  unfold CInt.to_int, CInt.INT_MIN, CInt.INT_MAX.
  pose proof (Z.mod_pos_bound (x + 2 ^ 31) (2 ^ 32)). lia.
Qed.

Lemma to_int_id (x : Z) : CInt.INT_MIN <= x <= CInt.INT_MAX -> CInt.to_int x = x.
Proof.
  unfold CInt.to_int, CInt.INT_MIN, CInt.INT_MAX. intros H.
  rewrite Z.mod_small; lia.
Qed.

Lemma to_int_changes (x : Z) : CInt.INT_MAX < x -> CInt.to_int x <> x.
Proof. intros H E. pose proof (to_int_range x). lia. Qed.

Lemma to_int_wrapped (x : Z) :
  CInt.to_int x = x - 2 ^ 32 * ((x + 2 ^ 31) / 2 ^ 32).
Proof. unfold CInt.to_int. Z.div_mod_to_equations. lia. Qed.

Lemma wrap64_small (x : Z) : 0 <= x < 2 ^ 64 -> CInt.wrap64 x = x.
Proof. intros H. unfold CInt.wrap64. apply Z.mod_small. lia. Qed.

(** Reading back the four bytes of an [int] gives the [int]. *)
Lemma int_bytes_roundtrip (v : Z) :
  CInt.INT_MIN <= v <= CInt.INT_MAX ->
  match CInt.int_to_bytes v with
  | [b0; b1; b2; b3] => CInt.bytes_to_int b0 b1 b2 b3 = v
  | _ => False
  end.
Proof.
  intros H. unfold CInt.int_to_bytes, CInt.bytes_to_int.
  change 255 with (Z.ones 8).
  rewrite !Z.land_ones, !Z.shiftr_div_pow2, !Z.shiftl_mul_pow2 by lia.
  unfold CInt.to_int, CInt.INT_MIN, CInt.INT_MAX in *.
  Z.div_mod_to_equations. lia.
Qed.

Lemma ints_bytes_roundtrip (l : list Z) :
  Forall (fun v => CInt.INT_MIN <= v <= CInt.INT_MAX) l ->
  CInt.bytes_to_ints (CInt.ints_to_bytes l) = Some l.
Proof.
  induction 1 as [|v l Hv _ IH]; [reflexivity|].
  pose proof (int_bytes_roundtrip v Hv) as Hb.
  unfold CInt.ints_to_bytes in *. cbn [flat_map].
  unfold CInt.int_to_bytes in *. cbn [app CInt.bytes_to_ints].
  rewrite IH, Hb. reflexivity.
Qed.

Lemma length_ints_to_bytes (l : list Z) :
  length (CInt.ints_to_bytes l) = (4 * length l)%nat.
Proof.
  induction l as [|v l IH]; [reflexivity|].
  unfold CInt.ints_to_bytes in *. cbn [flat_map]. rewrite length_app, IH.
  cbn [length CInt.int_to_bytes]. lia.
Qed.

End CIntFacts.

(** ** The storage engine *)

Section EngineFacts.

Lemma write_chunk_inr (d d' : Engine.Dataset) o payload m :
  Engine.write_chunk d o payload m = inr d' ->
  o mod Engine.chunk_size d = 0 /\
  o + Engine.chunk_size d <= Engine.logical_length d /\
  (m = 0 -> Z.of_nat (length payload) <= Engine.raw_length d) /\
  d' = Engine.upsert d o payload m.
Proof.
  unfold Engine.write_chunk.
  destruct (o mod Engine.chunk_size d =? 0) eqn:E1; cbn [negb]; [|discriminate].
  destruct (Engine.logical_length d <? o + Engine.chunk_size d) eqn:E2; [discriminate|].
  destruct ((Engine.raw_length d <? Z.of_nat (length payload)) && (m =? 0)) eqn:E3;
    [discriminate|].
  intros [= <-]. repeat split; lia.
Qed.

Lemma write_chunk_ok (d : Engine.Dataset) o payload m :
  o mod Engine.chunk_size d = 0 ->
  o + Engine.chunk_size d <= Engine.logical_length d ->
  Z.of_nat (length payload) <= Engine.raw_length d ->
  Engine.write_chunk d o payload m = inr (Engine.upsert d o payload m).
Proof.
  intros H1 H2 H3. unfold Engine.write_chunk.
  replace (o mod Engine.chunk_size d =? 0) with true by lia. cbn [negb].
  replace (Engine.logical_length d <? o + Engine.chunk_size d) with false by lia.
  replace (Engine.raw_length d <? Z.of_nat (length payload)) with false by lia.
  reflexivity.
Qed.

(** With filter mask 0, a payload over the raw budget is turned away,
    whatever the offset. *)
Lemma write_chunk_too_large (d : Engine.Dataset) o payload :
  Engine.raw_length d < Z.of_nat (length payload) ->
  exists e, Engine.write_chunk d o payload 0 = inl e.
Proof.
  intros H. unfold Engine.write_chunk.
  destruct (negb _); [eauto|]. destruct (_ <? _ + _); [eauto|].
  replace (Engine.raw_length d <? Z.of_nat (length payload)) with true by lia.
  cbn. eauto.
Qed.

(** A write leaves the length alone, stores the payload whole and touches no
    other chunk. *)
Lemma write_chunk_frame (d d' : Engine.Dataset) o payload m :
  Engine.write_chunk d o payload m = inr d' ->
  Engine.logical_length d' = Engine.logical_length d /\
  Engine.lookup d' o = Some (Engine.mkChunk payload m) /\
  (forall o', o' <> o -> Engine.lookup d' o' = Engine.lookup d o').
Proof.
  intros H. apply write_chunk_inr in H as (_ & _ & _ & ->).
  unfold Engine.lookup, Engine.upsert. cbn [Engine.logical_length Engine.index].
  split; [reflexivity|]. split; [apply lookup_insert_eq|].
  intros o' Hne. apply lookup_insert_ne. congruence.
Qed.

Lemma extend_inr (d d' : Engine.Dataset) n :
  Engine.extend d n = inr d' ->
  Engine.logical_length d <= n /\ Engine.logical_length d' = n /\
  Engine.chunk_size d' = Engine.chunk_size d /\
  Engine.element_width d' = Engine.element_width d /\
  Engine.fill_value d' = Engine.fill_value d /\
  Engine.index d' = Engine.index d.
Proof.
  unfold Engine.extend. destruct (n <? Engine.logical_length d) eqn:E; [discriminate|].
  intros [= <-]. cbn. repeat split; lia.
Qed.

Lemma extend_same (d : Engine.Dataset) : Engine.extend d (Engine.logical_length d) = inr d.
Proof. unfold Engine.extend. rewrite Z.ltb_irrefl. destruct d; reflexivity. Qed.

End EngineFacts.

(** ** [setup] and [extend_dataset] *)

Section ExtendFacts.

Lemma setup_dataset :
  MtFill.setup = Some MtFill.dataset0 /\ Writer.setup = Some Writer.dataset0 /\
  Writer.dataset0 = MtFill.dataset0 /\ MtFill.dataset0 = Results.unwritten 0.
Proof. repeat split; reflexivity. Qed.

(** The two programs have the same [extend_dataset]. *)
Lemma extend_dataset_same_code : Writer.extend_dataset = MtFill.extend_dataset.
Proof. reflexivity. Qed.

(** [extend_dataset] adds nothing to the engine's answer. *)
Lemma extend_dataset_spec (d : H5.hid_t) (size : Z) :
  MtFill.extend_dataset d size =
  match Engine.extend d size with
  | inl _ => (MtFill.FAIL, d)
  | inr d' => (MtFill.SUCCEED, d')
  end.
Proof.
  unfold MtFill.extend_dataset, H5.H5Dset_extent.
  destruct (Engine.extend d size); reflexivity.
Qed.

Lemma extend_dataset_monotone (d : H5.hid_t) (size : Z) :
  Engine.logical_length d <= Engine.logical_length (snd (MtFill.extend_dataset d size)).
Proof.
  rewrite extend_dataset_spec. destruct (Engine.extend d size) as [e|d'] eqn:E; cbn [snd].
  - lia.
  - apply extend_inr in E. lia.
Qed.

Lemma extend_calls_monotone (sizes : list Z) (d : H5.hid_t) :
  Engine.logical_length d <= Engine.logical_length (Results.extend_calls d sizes).
Proof.
  revert d. induction sizes as [|s sizes IH]; intros d; cbn; [lia|].
  etransitivity; [apply (extend_dataset_monotone d s)|apply IH].
Qed.

End ExtendFacts.

(** C5.  An [extend] to a length strictly below the current logical length
    fails with [ShrinkNotAllowed]; [extend_dataset] of either program then
    returns [FAIL] and leaves the dataset, hence its logical length, as it
    was.  Along any sequence of [extend_dataset] calls the logical length never
    decreases: after the calls [earlier ++ later] it is at least what it was
    after [earlier]. *)
Theorem extend_shrink_not_allowed (d : H5.hid_t) (size : Z) (earlier later : list Z) :
  size < Engine.logical_length d ->
  Engine.extend d size = inl Engine.ShrinkNotAllowed /\
  MtFill.extend_dataset d size = (MtFill.FAIL, d) /\
  Writer.extend_dataset d size = (Writer.FAIL, d) /\
  Engine.logical_length (snd (MtFill.extend_dataset d size)) = Engine.logical_length d /\
  Engine.logical_length (Results.extend_calls d earlier)
    <= Engine.logical_length (Results.extend_calls d (earlier ++ later)).
Proof.
  intros H.
  assert (Engine.extend d size = inl Engine.ShrinkNotAllowed) as E.
  { unfold Engine.extend. replace (size <? Engine.logical_length d) with true by lia.
    reflexivity. }
  assert (MtFill.extend_dataset d size = (MtFill.FAIL, d)) as E'.
  { rewrite extend_dataset_spec, E. reflexivity. }
  repeat split; try assumption.
  - rewrite E'. reflexivity.
  - unfold Results.extend_calls. rewrite fold_left_app. apply extend_calls_monotone.
Qed.

Lemma extend_shrink_not_allowed_witness :
  let d := Results.extend_calls MtFill.dataset0 [10; 20] in
  Engine.logical_length d = 20 /\
  Engine.extend d 10 = inl Engine.ShrinkNotAllowed /\
  MtFill.extend_dataset d 10 = (MtFill.FAIL, d) /\
  Engine.logical_length (Results.extend_calls d [10])
    <= Engine.logical_length (Results.extend_calls d ([10] ++ [5; 30])).
Proof.
  intros d.
  assert (10 < Engine.logical_length d) as H by (vm_compute; reflexivity).
  destruct (extend_shrink_not_allowed d 10 [10] [5; 30] H) as (E1 & E2 & _ & _ & Hm).
  split; [reflexivity|]. split; [exact E1|]. split; [exact E2|exact Hm].
Defined.

(** C6.  [extend] to the current logical length succeeds and changes
    nothing, so a second such call returns what the first did and the
    observable state (length, chunks, fill value) is the same after two calls
    as after one; this is so in both programs, whose [extend_dataset] is the
    same.  More generally, for any requested size a second [extend_dataset]
    with the same size leaves the dataset as the first one left it. *)
Theorem extend_idempotent (d : H5.hid_t) (size : Z) :
  let once := MtFill.extend_dataset d (Engine.logical_length d) in
  let twice := MtFill.extend_dataset (snd once) (Engine.logical_length d) in
  once = (MtFill.SUCCEED, d) /\
  twice = once /\
  Results.observable (snd twice) = Results.observable (snd once) /\
  Writer.extend_dataset = MtFill.extend_dataset /\
  snd (MtFill.extend_dataset (snd (MtFill.extend_dataset d size)) size)
    = snd (MtFill.extend_dataset d size).
Proof.
  assert (MtFill.extend_dataset d (Engine.logical_length d) = (MtFill.SUCCEED, d)) as E.
  { rewrite extend_dataset_spec, extend_same. reflexivity. }
  cbn zeta. rewrite E. cbn [snd]. rewrite E.
  repeat split.
  rewrite !extend_dataset_spec.
  destruct (Engine.extend d size) as [e|d'] eqn:E1; cbn [snd].
  - rewrite E1. reflexivity.
  - apply extend_inr in E1 as (_ & <- & _). rewrite extend_same. reflexivity.
Qed.

(** ** [direct_write]: the fill value and its guard *)

Section GuardFacts.

Lemma fill_loop_any (value : Z) (buf : list Z) :
  length buf = 10%nat -> MtFill.fill_loop value buf = replicate 10 value.
Proof.
  intros H. do 11 (destruct buf as [|? buf]; try discriminate H). reflexivity.
Qed.

Lemma writer_fill_loop_any (value : Z) (buf : list Z) :
  length buf = 10%nat -> Writer.fill_loop value buf = replicate 10 value.
Proof.
  intros H. do 11 (destruct buf as [|? buf]; try discriminate H). reflexivity.
Qed.

Lemma mtfill_guard_false (offset : Z) : MtFill.too_many_chunks offset = false.
Proof.
  unfold MtFill.too_many_chunks, MtFill.chunk_value.
  pose proof (to_int_range (offset / MtFill.CHUNK_SIZE)). lia.
Qed.

Lemma writer_guard_false (offset : Z) : Writer.too_many_chunks offset = false.
Proof.
  unfold Writer.too_many_chunks, Writer.chunk_value.
  pose proof (to_int_range (offset / Writer.CHUNK_SIZE)). lia.
Qed.

(** [direct_write] of [MtFill] reaches its call exactly when [malloc] does
    not return [NULL], and then with these arguments. *)
Lemma mtfill_args_eq (heap : Libc.heap_t) (offset : Z) :
  MtFill.direct_write_args heap offset =
  if heap offset 40
  then Some {| wc_filters := 0; wc_offset := offset; wc_data_size := 40;
               wc_buf := CInt.ints_to_bytes (replicate 10 (MtFill.chunk_value offset)) |}
  else None.
Proof.
  unfold MtFill.direct_write_args, Libc.malloc_ints. rewrite mtfill_guard_false.
  change (CInt.wrap64 (MtFill.buf_size * CInt.sizeof_char)) with 40.
  destruct (heap offset 40); [|reflexivity].
  rewrite fill_loop_any by reflexivity. reflexivity.
Qed.

Lemma mtfill_args (heap : Libc.heap_t) (offset : Z) :
  heap offset 40 = true ->
  MtFill.direct_write_args heap offset =
  Some {| wc_filters := 0; wc_offset := offset; wc_data_size := 40;
          wc_buf := CInt.ints_to_bytes (replicate 10 (MtFill.chunk_value offset)) |}.
Proof. intros H. rewrite mtfill_args_eq, H. reflexivity. Qed.

Lemma mtfill_args_inv (heap : Libc.heap_t) (offset : Z) (c : write_chunk_call) :
  MtFill.direct_write_args heap offset = Some c ->
  heap offset 40 = true /\
  c = {| wc_filters := 0; wc_offset := offset; wc_data_size := 40;
         wc_buf := CInt.ints_to_bytes (replicate 10 (MtFill.chunk_value offset)) |}.
Proof.
  rewrite mtfill_args_eq. destruct (heap offset 40); [|discriminate].
  intros H. split; [reflexivity|congruence].
Qed.

End GuardFacts.

(** C10, as it stands, fails at the chunk number [INT_MAX] itself: offset
    21474836470 has chunk number 2147483647, which is "at or beyond INT_MAX",
    and the conversion to [int] returns it unchanged in both programs (and
    [direct_write] goes on to its call, memory permitting). *)
Lemma chunk_number_int_max_is_kept :
  let offset := 21474836470 in
  offset / MtFill.CHUNK_SIZE = CInt.INT_MAX /\
  CInt.INT_MAX <= offset / MtFill.CHUNK_SIZE /\
  MtFill.chunk_value offset = offset / MtFill.CHUNK_SIZE /\
  Writer.chunk_value offset = offset / Writer.CHUNK_SIZE /\
  (exists c, MtFill.direct_write_args Libc.plentiful offset = Some c).
Proof.
  cbn zeta. repeat split; try (vm_compute; congruence).
  eexists. apply mtfill_args. reflexivity.
Qed.

(** C10, amended.  In both programs the test [value > INT_MAX] is false for
    every offset, because [value] is an [int]: the "can't have more than
    INT_MAX chunks" exit is never taken ([Writer] never leaves through it,
    [MtFill] reaches its call whenever [malloc] gives it its buffer, and
    only then).  A chunk number strictly beyond
    [INT_MAX] is changed by the conversion to [int] (wrapped modulo 2^32)
    instead of being rejected; a chunk number from 0 to [INT_MAX] is kept as
    it is. *)
Theorem int_max_guard_is_dead (heap : Libc.heap_t) (compress2 : Zlib.compress2_t)
  (offset : Z) :
  MtFill.too_many_chunks offset = false /\
  Writer.too_many_chunks offset = false /\
  Writer.encode_chunk heap compress2 offset <> Writer.TooManyChunks /\
  ((exists c, MtFill.direct_write_args heap offset = Some c)
   <-> heap offset MtFill.buf_size = true) /\
  (CInt.INT_MAX < offset / MtFill.CHUNK_SIZE ->
     MtFill.chunk_value offset <> offset / MtFill.CHUNK_SIZE /\
     Writer.chunk_value offset <> offset / Writer.CHUNK_SIZE /\
     MtFill.chunk_value offset
       = offset / MtFill.CHUNK_SIZE
         - 2 ^ 32 * ((offset / MtFill.CHUNK_SIZE + 2 ^ 31) / 2 ^ 32)) /\
  (0 <= offset / MtFill.CHUNK_SIZE <= CInt.INT_MAX ->
     MtFill.chunk_value offset = offset / MtFill.CHUNK_SIZE /\
     Writer.chunk_value offset = offset / Writer.CHUNK_SIZE).
Proof.
  split; [apply mtfill_guard_false|]. split; [apply writer_guard_false|].
  split.
  { unfold Writer.encode_chunk. rewrite writer_guard_false.
    destruct (Libc.malloc_ints _ _); [|discriminate].
    destruct (Libc.calloc _ _ _); [|discriminate].
    destruct (compress2 _ _ _ _) as [z_ret written].
    repeat (destruct (_ : bool); try discriminate). }
  split.
  { change MtFill.buf_size with 40. split.
    - intros [c Hc]. apply mtfill_args_inv in Hc. tauto.
    - intros H. eexists. apply mtfill_args, H. }
  split.
  - intros H. split; [apply to_int_changes; exact H|].
    split; [apply to_int_changes; exact H|]. apply to_int_wrapped.
  - intros H. unfold MtFill.chunk_value, Writer.chunk_value.
    change Writer.CHUNK_SIZE with MtFill.CHUNK_SIZE.
    rewrite to_int_id by (unfold CInt.INT_MIN; lia). split; reflexivity.
Qed.

Lemma int_max_guard_is_dead_witness :
  let offset := 21474836480 in
  CInt.INT_MAX < offset / MtFill.CHUNK_SIZE /\
  MtFill.too_many_chunks offset = false /\
  MtFill.chunk_value offset = -2147483648 /\
  MtFill.chunk_value offset <> offset / MtFill.CHUNK_SIZE.
Proof.
  cbn zeta.
  assert (CInt.INT_MAX < 21474836480 / MtFill.CHUNK_SIZE) as H by (vm_compute; reflexivity).
  destruct (int_max_guard_is_dead Libc.plentiful RunLength.compress2 21474836480)
    as (G & _ & _ & _ & T & _).
  destruct (T H) as (Hne & _ & _).
  split; [exact H|]. split; [exact G|]. split; [vm_compute; reflexivity|exact Hne].
Defined.

(** ** [direct_write] of [Writer]: buffers, [compress2] and the call *)

Section EncodeFacts.

Variable heap : Libc.heap_t.
Variable compress2 : Zlib.compress2_t.

Lemma buf_out_size_eq : Writer.buf_out_size = 53.
Proof. vm_compute. reflexivity. Qed.

Lemma buf_size_eq : Writer.buf_size = 40.
Proof. reflexivity. Qed.

(** [direct_write] of [Writer] with its sizes worked out: the two
    allocations, of 40 and of 53 bytes, then [compress2] on the filled buffer
    with room for 53 bytes. *)
Lemma encode_chunk_eq (offset : Z) :
  Writer.encode_chunk heap compress2 offset =
  if heap offset 40 then
    if heap offset 53 then
      let '(z_ret, written) :=
        compress2 53 (CInt.ints_to_bytes (replicate 10 (Writer.chunk_value offset)))
          40 Writer.COMPRESSION_LEVEL in
      if z_ret =? Zlib.Z_BUF_ERROR then Writer.Overflow
      else if z_ret =? Zlib.Z_MEM_ERROR then Writer.DeflateMemoryError
      else if negb (z_ret =? Zlib.Z_OK) then Writer.OtherDeflateError
      else if Z.of_nat (length written) >? 40
           then Writer.LargerThanChunk (Z.of_nat (length written))
           else Writer.Call {| wc_filters := 0; wc_offset := offset; wc_data_size := 53;
                               wc_buf := Libc.store_at_start written (replicate 53 0) |}
    else Writer.NoOutputBuffer
  else Writer.NoBuffer.
Proof.
  unfold Writer.encode_chunk, Libc.malloc_ints, Libc.calloc.
  rewrite writer_guard_false, buf_out_size_eq.
  change (CInt.wrap64 (Writer.buf_size * CInt.sizeof_char)) with 40.
  change (53 * CInt.sizeof_char) with 53.
  destruct (heap offset 40); [|reflexivity].
  destruct (heap offset 53); [|reflexivity].
  rewrite writer_fill_loop_any by reflexivity.
  change (CInt.wrap64 (Writer.CHUNK_SIZE * CInt.sizeof_int)) with 40.
  rewrite buf_size_eq. reflexivity.
Qed.

Lemma store_at_start_zeros (written : list Z) :
  Z.of_nat (length written) <= 53 ->
  Libc.store_at_start written (replicate 53 0) = written ++ replicate (53 - length written) 0.
Proof.
  intros H. unfold Libc.store_at_start.
  rewrite length_replicate, drop_replicate. apply take_ge.
  rewrite length_app, length_replicate. lia.
Qed.

(** When [direct_write] reaches [H5Dwrite_chunk], [compress2] has returned
    [Z_OK] with at most 40 bytes, and the call passes the whole 53-byte
    output buffer: those bytes and, after them, the zeros of [calloc]. *)
Lemma encode_chunk_call (offset : Z) (c : write_chunk_call) :
  Writer.encode_chunk heap compress2 offset = Writer.Call c ->
  exists written,
    compress2 53 (CInt.ints_to_bytes (replicate 10 (Writer.chunk_value offset))) 40
      Writer.COMPRESSION_LEVEL = (Zlib.Z_OK, written) /\
    Z.of_nat (length written) <= 40 /\
    c = {| wc_filters := 0; wc_offset := offset; wc_data_size := 53;
           wc_buf := written ++ replicate (53 - length written) 0 |}.
Proof.
  rewrite encode_chunk_eq.
  destruct (heap offset 40); [|discriminate]. destruct (heap offset 53); [|discriminate].
  destruct (compress2 53 _ 40 Writer.COMPRESSION_LEVEL) as [z_ret written].
  destruct (z_ret =? Zlib.Z_BUF_ERROR) eqn:E1; [discriminate|].
  destruct (z_ret =? Zlib.Z_MEM_ERROR) eqn:E2; [discriminate|].
  destruct (z_ret =? Zlib.Z_OK) eqn:E3; cbn [negb]; [|discriminate].
  destruct (Z.of_nat (length written) >? 40) eqn:E4; [discriminate|].
  intros [= <-]. exists written. split; [f_equal; lia|]. split; [lia|].
  f_equal. apply store_at_start_zeros. lia.
Qed.

(** The call is reached only with both buffers allocated. *)
Lemma encode_chunk_call_heap (offset : Z) (c : write_chunk_call) :
  Writer.encode_chunk heap compress2 offset = Writer.Call c ->
  heap offset 40 = true /\ heap offset 53 = true.
Proof.
  rewrite encode_chunk_eq.
  destruct (heap offset 40); [|discriminate]. destruct (heap offset 53); [|discriminate].
  split; reflexivity.
Qed.

Lemma writer_args_call (offset : Z) (c : write_chunk_call) :
  Writer.direct_write_args heap compress2 offset = Some c ->
  Writer.encode_chunk heap compress2 offset = Writer.Call c.
Proof.
  unfold Writer.direct_write_args.
  destruct (Writer.encode_chunk heap compress2 offset); try discriminate. congruence.
Qed.

Lemma padded_payload (offset : Z) (written : list Z) :
  Z.of_nat (length written) <= 40 ->
  handed_payload {| wc_filters := 0; wc_offset := offset; wc_data_size := 53;
                    wc_buf := written ++ replicate (53 - length written) 0 |}
  = written ++ replicate (53 - length written) 0.
Proof.
  intros H. unfold handed_payload. cbn [wc_data_size wc_buf]. apply take_ge.
  rewrite length_app, length_replicate. lia.
Qed.

(** The size test itself does its work: a stream longer than the chunk never
    gets as far as the call. *)
Lemma writer_rejects_larger_than_chunk (offset : Z) (written : list Z) :
  heap offset 40 = true -> heap offset 53 = true ->
  compress2 53 (CInt.ints_to_bytes (replicate 10 (Writer.chunk_value offset))) 40
    Writer.COMPRESSION_LEVEL = (Zlib.Z_OK, written) ->
  40 < Z.of_nat (length written) ->
  Writer.encode_chunk heap compress2 offset
    = Writer.LargerThanChunk (Z.of_nat (length written)) /\
  Writer.direct_write_args heap compress2 offset = None.
Proof.
  intros Hm Hca Hc Hlen.
  assert (Writer.encode_chunk heap compress2 offset
          = Writer.LargerThanChunk (Z.of_nat (length written))) as E.
  { rewrite encode_chunk_eq, Hm, Hca, Hc.
    cbn [Z.eqb Zlib.Z_OK Zlib.Z_BUF_ERROR Zlib.Z_MEM_ERROR negb].
    replace (Z.of_nat (length written) >? 40) with true by lia.
    reflexivity. }
  split; [exact E|]. unfold Writer.direct_write_args. rewrite E. reflexivity.
Qed.

(** The engine turns every call of [Writer] away: 53 bytes do not fit the
    40-byte budget of a chunk of the programs' dataset. *)
Lemma writer_direct_write_fails (d : H5.hid_t) (o : Z) :
  Results.demo_dataset d ->
  Writer.direct_write heap compress2 d o = (-1, d).
Proof.
  intros [Hcs Hw]. unfold Writer.direct_write.
  destruct (Writer.direct_write_args heap compress2 o) as [c|] eqn:E; [|reflexivity].
  apply writer_args_call, encode_chunk_call in E. destruct E as (written & _ & Hlen & ->).
  unfold issue, H5.H5Dwrite_chunk. cbn [wc_filters wc_offset wc_data_size wc_buf].
  pose proof (padded_payload o written Hlen) as Hp. unfold handed_payload in Hp.
  cbn [wc_data_size wc_buf] in Hp. rewrite Hp.
  destruct (write_chunk_too_large d o (written ++ replicate (53 - length written) 0))
    as [e He].
  { unfold Engine.raw_length. rewrite Hcs, Hw, length_app, length_replicate. lia. }
  rewrite He. reflexivity.
Qed.

End EncodeFacts.

Lemma run_length_respects_bound : Zlib.respects_bound RunLength.compress2.
Proof.
  intros destLen source level Hd. unfold RunLength.compress2.
  assert (Z.of_nat (length (RunLength.deflate source)) <= Z.of_nat (length source) + 1) as Hl.
  { unfold RunLength.deflate.
    destruct (length (RunLength.rle source) <? length source)%nat eqn:E; cbn [length].
    - apply Nat.ltb_lt in E. lia.
    - lia. }
  assert (Z.of_nat (length source) + 1 <= Zlib.compress_bound (Z.of_nat (length source))) as Hb.
  { unfold Zlib.compress_bound. Z.div_mod_to_equations. lia. }
  replace (destLen <? Z.of_nat (length (RunLength.deflate source))) with false by lia.
  cbn. discriminate.
Qed.

(** C8.  [Writer] sizes its output buffer as
    [(size_t)ceil(buf_size * 1.001) + 12], where [buf_size] is
    [CHUNK_SIZE * sizeof(int)]: that is 53 bytes, the bound the [compress2]
    documentation asks for.  That is the size [direct_write] asks of [calloc]
    (it leaves through the [calloc] failure exit exactly when [malloc] has
    given its 40 bytes and an allocation of that size is refused), the size
    [calloc] returns when it succeeds, the room [compress2] is told it has,
    and the size of the buffer that reaches [H5Dwrite_chunk], which holds the
    bytes [compress2] wrote followed by zeros.  If [compress2] keeps that
    bound (it never reports [Z_BUF_ERROR] when given that much room), then for
    no offset, and whatever the allocator does, does [direct_write] leave
    through its "overflow" exit. *)
Theorem deflate_overflow_unreachable (heap : Libc.heap_t) (compress2 : Zlib.compress2_t)
  (offset : Z) :
  Zlib.respects_bound compress2 ->
  Writer.buf_out_size
    = CInt.size_t_of_ceil (CInt.size_t_to_double Writer.buf_size * 1.001)%float + 12 /\
  Writer.buf_size = Writer.CHUNK_SIZE * CInt.sizeof_int /\
  Writer.buf_out_size = Zlib.compress_bound Writer.buf_size /\
  (Writer.encode_chunk heap compress2 offset = Writer.NoOutputBuffer
   <-> heap offset Writer.buf_size = true /\ heap offset Writer.buf_out_size = false) /\
  (forall available buf_out,
     Libc.calloc available Writer.buf_out_size CInt.sizeof_char = Some buf_out ->
     Z.of_nat (length buf_out) = Writer.buf_out_size) /\
  (forall c, Writer.encode_chunk heap compress2 offset = Writer.Call c ->
     Z.of_nat (length (wc_buf c)) = Writer.buf_out_size /\
     exists written,
       compress2 Writer.buf_out_size
         (CInt.ints_to_bytes (replicate (Z.to_nat Writer.CHUNK_SIZE) (Writer.chunk_value offset)))
         Writer.buf_size Writer.COMPRESSION_LEVEL = (Zlib.Z_OK, written) /\
       wc_buf c
       = written ++ replicate (Z.to_nat Writer.buf_out_size - length written) 0) /\
  Writer.encode_chunk heap compress2 offset <> Writer.Overflow.
Proof.
  intros Hb. split; [vm_compute; reflexivity|]. split; [reflexivity|].
  split; [vm_compute; reflexivity|].
  rewrite buf_out_size_eq, buf_size_eq.
  change (Z.to_nat Writer.CHUNK_SIZE) with 10%nat. change (Z.to_nat 53) with 53%nat.
  split.
  { rewrite encode_chunk_eq.
    destruct (heap offset 40); [|split; [discriminate|intros [? _]; discriminate]].
    destruct (heap offset 53); [|split; auto].
    split; [|intros [_ ?]; discriminate].
    destruct (compress2 53 _ 40 Writer.COMPRESSION_LEVEL) as [z_ret written].
    repeat (destruct (_ : bool); try discriminate). }
  split.
  { intros available buf_out. unfold Libc.calloc.
    destruct (available _); [|discriminate]. intros H.
    assert (buf_out = replicate (Z.to_nat (53 * CInt.sizeof_char)) 0) as -> by congruence.
    rewrite length_replicate. reflexivity. }
  split.
  { intros c Hc. apply encode_chunk_call in Hc. destruct Hc as (written & Hc & Hlen & ->).
    cbn [wc_buf]. split.
    - rewrite length_app, length_replicate. lia.
    - exists written. split; [exact Hc|reflexivity]. }
  rewrite encode_chunk_eq.
  destruct (heap offset 40); [|discriminate]. destruct (heap offset 53); [|discriminate].
  pose proof (Hb 53 (CInt.ints_to_bytes (replicate 10 (Writer.chunk_value offset)))
                Writer.COMPRESSION_LEVEL) as Hret.
  rewrite length_ints_to_bytes, length_replicate in Hret.
  change (Z.of_nat (4 * 10)) with 40 in Hret.
  specialize (Hret ltac:(vm_compute; discriminate)).
  destruct (compress2 53 _ 40 Writer.COMPRESSION_LEVEL) as [z_ret written].
  cbn [fst] in Hret.
  destruct (z_ret =? Zlib.Z_BUF_ERROR) eqn:E1; [lia|].
  destruct (z_ret =? Zlib.Z_MEM_ERROR); [discriminate|].
  destruct (negb (z_ret =? Zlib.Z_OK)); [discriminate|].
  destruct (_ >? _); discriminate.
Qed.

Lemma deflate_overflow_unreachable_witness :
  exists c,
    Writer.encode_chunk Libc.plentiful RunLength.compress2 0 = Writer.Call c /\
    Z.of_nat (length (wc_buf c)) = 53 /\
    wc_buf c = [1; 40; 0] ++ replicate 50 0 /\
    Writer.encode_chunk Libc.plentiful RunLength.compress2 10 = Writer.LargerThanChunk 41 /\
    Writer.encode_chunk Libc.plentiful RunLength.compress2 10 <> Writer.Overflow.
Proof.
  eexists.
  assert (Writer.encode_chunk Libc.plentiful RunLength.compress2 0
          = Writer.Call {| wc_filters := 0; wc_offset := 0; wc_data_size := 53;
                           wc_buf := [1; 40; 0] ++ replicate 50 0 |}) as E
    by (vm_compute; reflexivity).
  split; [exact E|].
  destruct (deflate_overflow_unreachable Libc.plentiful RunLength.compress2 0
              run_length_respects_bound) as (_ & _ & _ & _ & _ & Hcall & _).
  destruct (Hcall _ E) as [Hlen _].
  destruct (deflate_overflow_unreachable Libc.plentiful RunLength.compress2 10
              run_length_respects_bound) as (_ & _ & _ & _ & _ & _ & H).
  split; [rewrite Hlen; vm_compute; reflexivity|]. split; [reflexivity|].
  split; [vm_compute; reflexivity|exact H].
Defined.

(** C1, at the call.  Whenever [direct_write] of [Writer] reaches
    [H5Dwrite_chunk] (so [compress2] returned [Z_OK] and the test
    [z_destLen > buf_size] did not fire), the byte count it passes is
    [buf_out_size] = 53, not [z_destLen]: more than the
    [CHUNK_SIZE * sizeof(int)] = 40 bytes of a chunk, and the payload handed
    over has these 53 bytes. *)
Theorem writer_hands_more_than_a_chunk (heap : Libc.heap_t) (compress2 : Zlib.compress2_t)
  (offset : Z) (c : write_chunk_call) :
  Writer.direct_write_args heap compress2 offset = Some c ->
  wc_data_size c = Writer.buf_out_size /\
  Writer.buf_out_size = 53 /\
  Writer.CHUNK_SIZE * CInt.sizeof_int = 40 /\
  Writer.CHUNK_SIZE * CInt.sizeof_int < wc_data_size c /\
  Z.of_nat (length (handed_payload c)) = wc_data_size c.
Proof.
  intros H. apply writer_args_call, encode_chunk_call in H.
  destruct H as (written & _ & Hlen & ->). rewrite padded_payload by exact Hlen.
  cbn [wc_data_size]. rewrite buf_out_size_eq. repeat split; try reflexivity.
  rewrite length_app, length_replicate. lia.
Qed.

Lemma writer_hands_more_than_a_chunk_witness :
  exists c, Writer.direct_write_args Libc.plentiful RunLength.compress2 0 = Some c /\
            wc_data_size c = 53 /\
            Writer.CHUNK_SIZE * CInt.sizeof_int < wc_data_size c.
Proof.
  eexists. split; [vm_compute; reflexivity|].
  destruct (writer_hands_more_than_a_chunk Libc.plentiful RunLength.compress2 0 _ eq_refl)
    as (_ & _ & _ & H & _).
  split; [reflexivity|exact H].
Defined.

(** C2, at the call.  Whenever [direct_write] of [Writer] reaches
    [H5Dwrite_chunk], the payload it hands over is not the [z_destLen] bytes
    [compress2] produced but those bytes followed by the zeros that fill the
    output buffer up to 53 bytes: at least 13 trailing bytes. *)
Theorem writer_payload_has_trailing_bytes (heap : Libc.heap_t)
  (compress2 : Zlib.compress2_t) (offset : Z) (c : write_chunk_call) :
  Writer.direct_write_args heap compress2 offset = Some c ->
  exists written,
    compress2 53 (CInt.ints_to_bytes (replicate 10 (Writer.chunk_value offset))) 40
      Writer.COMPRESSION_LEVEL = (Zlib.Z_OK, written) /\
    handed_payload c = written ++ replicate (53 - length written) 0 /\
    (length written + 13 <= length (handed_payload c))%nat /\
    handed_payload c <> written.
Proof.
  intros H. apply writer_args_call, encode_chunk_call in H.
  destruct H as (written & Hc & Hlen & ->). exists written. split; [exact Hc|].
  rewrite padded_payload by exact Hlen. split; [reflexivity|]. split.
  - rewrite length_app, length_replicate. lia.
  - intros Heq. apply (f_equal length) in Heq.
    rewrite length_app, length_replicate in Heq. lia.
Qed.

Lemma writer_payload_has_trailing_bytes_witness :
  exists c,
    Writer.direct_write_args Libc.plentiful RunLength.compress2 0 = Some c /\
    handed_payload c = [1; 40; 0] ++ replicate 50 0.
Proof.
  exists {| wc_filters := 0; wc_offset := 0; wc_data_size := 53;
            wc_buf := [1; 40; 0] ++ replicate 50 0 |}.
  assert (Writer.direct_write_args Libc.plentiful RunLength.compress2 0 =
          Some {| wc_filters := 0; wc_offset := 0; wc_data_size := 53;
                  wc_buf := [1; 40; 0] ++ replicate 50 0 |}) as E
    by (vm_compute; reflexivity).
  split; [exact E|].
  destruct (writer_payload_has_trailing_bytes Libc.plentiful RunLength.compress2 0 _ E)
    as (written & Hc & Hp & _).
  vm_compute in Hc. injection Hc as <-. exact Hp.
Defined.

(** [MtFill], for comparison, hands over exactly the 40 raw bytes of the
    chunk, and a successful write stores them with the mask. *)
Lemma mtfill_handed_payload (heap : Libc.heap_t) (offset : Z) (c : write_chunk_call) :
  MtFill.direct_write_args heap offset = Some c ->
  handed_payload c = CInt.ints_to_bytes (replicate 10 (MtFill.chunk_value offset)) /\
  Z.of_nat (length (handed_payload c)) = MtFill.CHUNK_SIZE * CInt.sizeof_int /\
  wc_filters c = 0.
Proof.
  intros H.
  assert (c = {| wc_filters := 0; wc_offset := offset; wc_data_size := 40;
                 wc_buf := CInt.ints_to_bytes (replicate 10 (MtFill.chunk_value offset)) |})
    as -> by (apply mtfill_args_inv in H; tauto).
  clear H. unfold handed_payload. cbn [wc_data_size wc_buf wc_filters].
  assert (length (CInt.ints_to_bytes (replicate 10 (MtFill.chunk_value offset))) = 40%nat)
    as Hlen by (rewrite length_ints_to_bytes, length_replicate; reflexivity).
  rewrite take_ge by (rewrite Hlen; reflexivity).
  split; [reflexivity|]. split; [|reflexivity]. rewrite Hlen. reflexivity.
Qed.

(** ** [direct_write] against the engine *)

Section DirectWriteFacts.

Lemma mtfill_direct_write (heap : Libc.heap_t) (d : H5.hid_t) (o : Z) :
  heap o 40 = true ->
  MtFill.direct_write heap d o =
  match Engine.write_chunk d o (CInt.ints_to_bytes (replicate 10 (MtFill.chunk_value o))) 0 with
  | inl _ => (-1, d)
  | inr d' => (0, d')
  end.
Proof.
  intros Hm. unfold MtFill.direct_write.
  destruct (mtfill_handed_payload heap o _ (mtfill_args heap o Hm)) as (Hp & _ & _).
  rewrite mtfill_args by exact Hm. unfold issue, H5.H5Dwrite_chunk.
  unfold handed_payload in Hp. rewrite Hp. cbn [wc_filters wc_offset].
  destruct (Engine.write_chunk d o _ 0); reflexivity.
Qed.

(** Without its buffer [direct_write] fails and leaves the dataset alone. *)
Lemma mtfill_direct_write_no_memory (heap : Libc.heap_t) (d : H5.hid_t) (o : Z) :
  heap o 40 = false -> MtFill.direct_write heap d o = (-1, d).
Proof.
  intros Hm. unfold MtFill.direct_write. rewrite mtfill_args_eq, Hm. reflexivity.
Qed.

(** What [direct_write] of either program does to a dataset of theirs: it
    fails and leaves it as it was, or it stores, whole, the chunk of its
    call at an aligned offset within the dataset. *)
Lemma direct_write_of_spec (p : Results.program) (d : H5.hid_t) (o : Z) :
  Results.demo_dataset d ->
  Results.direct_write_of p d o = (-1, d) \/
  exists c, Results.args_of p o = Some c /\
            Results.direct_write_of p d o
              = (0, Engine.upsert d o (handed_payload c) (wc_filters c)) /\
            o mod 10 = 0 /\ o + 10 <= Engine.logical_length d.
Proof.
  intros Hd. destruct p as [h|h z]; cbn [Results.direct_write_of Results.args_of].
  - destruct (h o 40) eqn:Hm; [|left; apply mtfill_direct_write_no_memory, Hm].
    rewrite mtfill_direct_write by exact Hm.
    destruct (Engine.write_chunk d o _ 0) as [e|d'] eqn:E; [left; reflexivity|right].
    apply write_chunk_inr in E as (Ha & Hr & _ & ->). destruct Hd as [Hcs _].
    rewrite Hcs in Ha, Hr.
    eexists. split; [apply mtfill_args, Hm|].
    destruct (mtfill_handed_payload h o _ (mtfill_args h o Hm)) as (-> & _ & _).
    cbn [wc_filters]. repeat split; assumption.
  - left. apply writer_direct_write_fails, Hd.
Qed.

Lemma direct_write_of_length (p : Results.program) (d : H5.hid_t) (o : Z) :
  Results.demo_dataset d ->
  Engine.logical_length (snd (Results.direct_write_of p d o)) = Engine.logical_length d.
Proof.
  intros Hd. destruct (direct_write_of_spec p d o Hd) as [E|(c & _ & E & _)]; rewrite E;
    reflexivity.
Qed.

Lemma upsert_untorn (args : Z -> option write_chunk_call) (d : H5.hid_t) o c :
  untorn args d -> args o = Some c ->
  untorn args (Engine.upsert d o (handed_payload c) (wc_filters c)).
Proof.
  intros Hu Ha o' ch. unfold Engine.lookup, Engine.upsert. cbn [Engine.index].
  destruct (decide (o = o')) as [<-|Hne].
  - rewrite lookup_insert_eq. intros [= <-]. exists c. split; [exact Ha|reflexivity].
  - rewrite lookup_insert_ne by exact Hne. apply Hu.
Qed.

End DirectWriteFacts.

(** ** The loop of [main], step by step *)

Section LoopFacts.

Variable p : Results.program.

Lemma run_of_eq :
  Results.run_of p = Main.run 10 MtFill.extend_dataset (Results.direct_write_of p).
Proof. destruct p; reflexivity. Qed.

Lemma cycles_started_of_eq :
  Results.cycles_started_of p
  = Main.cycles_started 10 MtFill.extend_dataset (Results.direct_write_of p).
Proof. destruct p; reflexivity. Qed.

Lemma loop_body_of_eq :
  Results.loop_body_of p = Main.loop_body 10 MtFill.extend_dataset (Results.direct_write_of p).
Proof. destruct p; reflexivity. Qed.

Lemma run_of_cons (c : config) (e : event) (es : list event) :
  Results.run_of p c (e :: es)
  = Results.run_of p (match e with Tick => Results.step_of p c | Sigint => ctrl_c_handler c end) es.
Proof. rewrite run_of_eq. destruct e; reflexivity. Qed.

(** The extend of a cycle: refused once the new size wraps around 2^64 (the
    wrapped size is below the current length), applied otherwise. *)
Lemma extend_step (d : H5.hid_t) (n : Z) :
  0 <= n -> Engine.logical_length d = n * 10 -> n * 10 < 2 ^ 64 ->
  let size := CInt.wrap64 ((n + 1) * 10) in
  (2 ^ 64 <= (n + 1) * 10 /\ MtFill.extend_dataset d size = (-1, d)) \/
  ((n + 1) * 10 < 2 ^ 64 /\ size = (n + 1) * 10 /\
   exists d', MtFill.extend_dataset d size = (0, d') /\
     Engine.extend d size = inr d').
Proof.
  intros Hn Hl Hb size. rewrite extend_dataset_spec.
  destruct (Z_lt_dec ((n + 1) * 10) (2 ^ 64)) as [Hs|Hs].
  - right. split; [exact Hs|]. assert (size = (n + 1) * 10) as E.
    { apply wrap64_small. lia. }
    split; [exact E|]. unfold Engine.extend.
    replace (size <? Engine.logical_length d) with false by lia. eexists. split; reflexivity.
  - left. split; [lia|]. unfold Engine.extend.
    assert (size = (n + 1) * 10 - 2 ^ 64) as E.
    { unfold size, CInt.wrap64. Z.div_mod_to_equations. lia. }
    replace (size <? Engine.logical_length d) with true by lia. reflexivity.
Qed.

Lemma step_invariant (c : config) :
  Results.loop_invariant c -> untorn (Results.args_of p) (did (vars c)) ->
  Results.loop_invariant (Results.step_of p c) /\
  untorn (Results.args_of p) (did (vars (Results.step_of p c))).
Proof.
  destruct c as [pc0 s [n d]]. unfold Results.loop_invariant, Results.step_of, step.
  cbn [at_pc stop vars n_chunks did].
  intros (Hcs & Hw & Hs & Hn & Hpc) Hu.
  destruct pc0; cbn [goto at_pc stop vars n_chunks did].
  - destruct (s =? 0); cbn [goto at_pc stop vars n_chunks did]; auto 10.
  - destruct Hpc as [Hl Hb]. unfold new_size. cbn [n_chunks].
    destruct (extend_step d n Hn Hl Hb) as [(_ & E)|(Hlt & Esz & d' & E & Ee)]; rewrite E.
    + cbn [Z.ltb Z.compare goto at_pc stop vars n_chunks did]. auto 10.
    + cbn [Z.ltb Z.compare goto at_pc stop vars n_chunks did].
      apply extend_inr in Ee as (_ & Hl' & Hcs' & Hw' & _ & Hi).
      split; [|intros o ch; unfold Engine.lookup; rewrite Hi; apply Hu].
      repeat split; try congruence; try lia.
  - destruct Hpc as [Hl Hb]. unfold write_offset. cbn [n_chunks].
    rewrite (wrap64_small (n * 10)) by lia.
    destruct (direct_write_of_spec p d (n * 10) (conj Hcs Hw))
      as [E|(c & Ha & E & _ & _)]; rewrite E.
    + cbn [Z.ltb Z.compare goto at_pc stop vars n_chunks did]. auto 10.
    + cbn [Z.ltb Z.compare goto at_pc stop vars n_chunks did].
      rewrite (wrap64_small (n + 1)) by lia.
      split; [|apply upsert_untorn; assumption].
      cbn [Engine.upsert Engine.chunk_size Engine.element_width Engine.logical_length].
      repeat split; try assumption; lia.
  - auto 10.
  - auto 10.
  - auto 10.
Qed.

Lemma handler_invariant (c : config) :
  Results.loop_invariant c -> Results.loop_invariant (ctrl_c_handler c).
Proof.
  unfold Results.loop_invariant, ctrl_c_handler. cbn [at_pc stop vars].
  intros (Hcs & Hw & _ & Hn & Hpc). auto 10.
Qed.

Lemma run_invariant (es : list event) (c : config) :
  Results.loop_invariant c -> untorn (Results.args_of p) (did (vars c)) ->
  Results.loop_invariant (Results.run_of p c es) /\
  untorn (Results.args_of p) (did (vars (Results.run_of p c es))).
Proof.
  revert c. induction es as [|e es IH]; intros c Hi Hu.
  - rewrite run_of_eq. split; assumption.
  - rewrite run_of_cons. destruct e.
    + destruct (step_invariant c Hi Hu) as [Hi' Hu']. apply IH; assumption.
    + apply IH; [apply handler_invariant, Hi|exact Hu].
Qed.

Lemma reachable_invariant (es : list event) :
  Results.loop_invariant (Results.run_of p Results.start es) /\
  untorn (Results.args_of p) (did (vars (Results.run_of p Results.start es))).
Proof.
  apply run_invariant.
  - unfold Results.loop_invariant. cbn. repeat split; auto; lia.
  - intros o ch. unfold Engine.lookup. cbn. rewrite lookup_empty. discriminate.
Qed.

End LoopFacts.

(** C4.  Whenever the loop of either program is about to call
    [direct_write] (in any run, SIGINT deliveries included), with [n] the
    current value of [n_chunks]: the offset is [n * CHUNK_SIZE] exactly, a
    multiple of the chunk size; the extend of this iteration has been applied,
    the logical length being [(n + 1) * CHUNK_SIZE]; so offset + chunk_size is
    within the logical length; and [direct_write] leaves the logical length as
    it is.  The engine's write never extends the dataset, stores the payload
    it is given whole under the offset, whatever was there, and leaves every
    other chunk alone. *)
Theorem writes_meet_preconditions (p : Results.program) (es : list event) :
  let c := Results.run_of p Results.start es in
  let n := n_chunks (vars c) in
  let offset := write_offset 10 (vars c) in
  at_pc c = AtWrite ->
  offset = n * 10 /\
  offset mod 10 = 0 /\
  Engine.logical_length (did (vars c)) = (n + 1) * 10 /\
  offset + 10 <= Engine.logical_length (did (vars c)) /\
  Engine.logical_length (snd (Results.direct_write_of p (did (vars c)) offset))
    = Engine.logical_length (did (vars c)) /\
  (forall d d' o payload m,
      Engine.write_chunk d o payload m = inr d' ->
      Engine.logical_length d' = Engine.logical_length d /\
      Engine.lookup d' o = Some (Engine.mkChunk payload m) /\
      (forall o', o' <> o -> Engine.lookup d' o' = Engine.lookup d o')).
Proof.
  intros c n offset Hpc.
  destruct (reachable_invariant p es) as [Hi _]. fold c in Hi.
  unfold Results.loop_invariant in Hi. rewrite Hpc in Hi. fold n in Hi.
  destruct Hi as (Hcs & Hw & _ & Hn & Hl & Hb).
  assert (offset = n * 10) as E.
  { unfold offset, write_offset. fold n. apply wrap64_small. lia. }
  split; [exact E|]. split; [rewrite E; apply Z.mod_mul; lia|].
  split; [exact Hl|]. split; [lia|].
  split; [apply direct_write_of_length; split; assumption|].
  intros d d' o payload m. apply write_chunk_frame.
Qed.

Lemma writes_meet_preconditions_witness :
  let c := Results.run_of (Results.mt_fill Libc.plentiful) Results.start
             [Tick; Tick; Tick; Tick; Tick; Tick] in
  at_pc c = AtWrite /\ n_chunks (vars c) = 1 /\
  write_offset 10 (vars c) = 10 /\ Engine.logical_length (did (vars c)) = 20.
Proof.
  cbn zeta.
  assert (at_pc (Results.run_of (Results.mt_fill Libc.plentiful) Results.start
                   [Tick; Tick; Tick; Tick; Tick; Tick]) = AtWrite) as H
    by (vm_compute; reflexivity).
  assert (n_chunks (vars (Results.run_of (Results.mt_fill Libc.plentiful) Results.start
                   [Tick; Tick; Tick; Tick; Tick; Tick])) = 1) as Hn
    by (vm_compute; reflexivity).
  destruct (writes_meet_preconditions (Results.mt_fill Libc.plentiful) _ H) as (Ho & _ & Hl & _).
  rewrite Hn in Ho, Hl.
  split; [exact H|]. split; [exact Hn|]. split; [exact Ho|exact Hl].
Defined.

(** ** SIGINT *)

Section Cancellation.

Variable p : Results.program.

(** Off the loop test a step does not read [stop]: it makes no difference
    whether the handler runs just before or just after it. *)
Lemma step_ignores_stop (c : config) :
  at_pc c <> AtWhile ->
  Results.step_of p (ctrl_c_handler c) = ctrl_c_handler (Results.step_of p c).
Proof.
  destruct c as [pc0 s st]. unfold Results.step_of, step, ctrl_c_handler.
  cbn [at_pc stop vars]. intros H.
  destruct pc0; try congruence; cbn [at_pc stop vars]; try reflexivity.
  - destruct (MtFill.extend_dataset _ _) as [r d]. destruct (r <? 0); reflexivity.
  - destruct (Results.direct_write_of p _ _) as [r d]. destruct (r <? 0); reflexivity.
Qed.

Lemma step_keeps_stop (c : config) : stop (Results.step_of p c) = stop c.
Proof.
  destruct c as [pc0 s st]. unfold Results.step_of, step. cbn [at_pc stop vars].
  destruct pc0; cbn [goto stop]; try reflexivity.
  - destruct (s =? 0); reflexivity.
  - destruct (MtFill.extend_dataset _ _) as [r d]. destruct (r <? 0); reflexivity.
  - destruct (Results.direct_write_of p _ _) as [r d]. destruct (r <? 0); reflexivity.
Qed.

Lemma handler_when_set (c : config) : stop c = 1 -> ctrl_c_handler c = c.
Proof. destruct c as [pc0 s st]. cbn. intros ->. reflexivity. Qed.

Lemma no_cycle_starts (es : list event) (c : config) :
  stop c = 1 -> Results.cycles_started_of p c es = 0%nat.
Proof.
  rewrite cycles_started_of_eq. revert c.
  induction es as [|e es IH]; intros c H; [reflexivity|].
  cbn [cycles_started]. rewrite IH.
  - destruct e; [|reflexivity]. destruct (at_pc c); try reflexivity. rewrite H. reflexivity.
  - destruct e; cbn [deliver]; [|reflexivity].
    change (stop (Results.step_of p c) = 1). rewrite step_keeps_stop. exact H.
Qed.

Lemma step_towards_exit (c : config) :
  stop c = 1 ->
  (steps_to_exit (at_pc (Results.step_of p c)) <= pred (steps_to_exit (at_pc c)))%nat.
Proof.
  destruct c as [pc0 s st]. unfold Results.step_of, step. cbn [at_pc stop vars].
  intros ->. destruct pc0; cbn; try lia.
  - destruct (MtFill.extend_dataset _ _) as [r d]. destruct (r <? 0); cbn; lia.
  - destruct (Results.direct_write_of p _ _) as [r d]. destruct (r <? 0); cbn; lia.
Qed.

Lemma run_towards_exit (es : list event) (c : config) :
  stop c = 1 ->
  (steps_to_exit (at_pc (Results.run_of p c es)) <= steps_to_exit (at_pc c) - ticks es)%nat.
Proof.
  revert c. induction es as [|e es IH]; intros c H.
  - rewrite run_of_eq. cbn. lia.
  - rewrite run_of_cons. destruct e; cbn [ticks].
    + pose proof (step_towards_exit c H) as Hs.
      specialize (IH (Results.step_of p c)). rewrite step_keeps_stop in IH.
      specialize (IH H). lia.
    + rewrite handler_when_set by exact H. apply IH, H.
Qed.

Lemma exits_within_four_steps (es : list event) (c : config) :
  stop c = 1 -> (4 <= ticks es)%nat -> halted (Results.run_of p c es).
Proof.
  intros H Ht. pose proof (run_towards_exit es c H) as Hm.
  assert (steps_to_exit (at_pc c) <= 4)%nat by (destruct (at_pc c); cbn; lia).
  unfold halted. destruct (at_pc (Results.run_of p c es)); cbn in Hm; auto; lia.
Qed.

(** Once [stop] is set, nothing changes the variables outside a cycle. *)
Lemma vars_frozen (es : list event) (c : config) :
  stop c = 1 -> at_pc c <> AtExtend -> at_pc c <> AtWrite ->
  vars (Results.run_of p c es) = vars c.
Proof.
  revert c. induction es as [|e es IH]; intros c H H1 H2.
  - rewrite run_of_eq. reflexivity.
  - rewrite run_of_cons. destruct e.
    + destruct c as [pc0 s st]. cbn [at_pc stop] in *. subst s.
      destruct pc0; try congruence;
        (rewrite IH; [reflexivity|reflexivity|discriminate|discriminate]).
    + rewrite handler_when_set by exact H. apply IH; assumption.
Qed.

(** The pending [direct_write] of a cycle is carried out, once. *)
Lemma pending_write_completes (es : list event) (c : config) :
  stop c = 1 -> at_pc c = AtWrite -> (1 <= ticks es)%nat ->
  vars (Results.run_of p c es) = vars (Results.step_of p c).
Proof.
  revert c. induction es as [|e es IH]; intros c H Hpc Ht; [cbn in Ht; lia|].
  rewrite run_of_cons. destruct e.
  - apply vars_frozen.
    + rewrite step_keeps_stop. exact H.
    + destruct c as [pc0 s st]. cbn [at_pc] in Hpc. subst pc0.
      unfold Results.step_of, step. cbn [at_pc vars].
      destruct (Results.direct_write_of p _ _) as [r d]. destruct (r <? 0); discriminate.
    + destruct c as [pc0 s st]. cbn [at_pc] in Hpc. subst pc0.
      unfold Results.step_of, step. cbn [at_pc vars].
      destruct (Results.direct_write_of p _ _) as [r d]. destruct (r <? 0); discriminate.
  - rewrite handler_when_set by exact H. apply IH; assumption.
Qed.

(** The cycle in progress is carried out as one whole iteration of the loop
    body. *)
Lemma pending_cycle_completes (es : list event) (c : config) :
  stop c = 1 -> at_pc c = AtExtend -> (2 <= ticks es)%nat ->
  vars (Results.run_of p c es) = snd (Results.loop_body_of p (vars c)).
Proof.
  rewrite loop_body_of_eq.
  revert c. induction es as [|e es IH]; intros c H Hpc Ht; [cbn in Ht; lia|].
  rewrite run_of_cons. destruct e.
  - cbn [ticks] in Ht. destruct c as [pc0 s st]. cbn [at_pc stop] in *. subst pc0 s.
    unfold loop_body. cbn [vars].
    assert (Results.step_of p {| at_pc := AtExtend; stop := 1; vars := st |}
            = let '(r, d) := MtFill.extend_dataset (did st) (new_size 10 st) in
              if r <? 0
              then {| at_pc := AtBadness; stop := 1;
                      vars := {| n_chunks := n_chunks st; did := d |} |}
              else {| at_pc := AtWrite; stop := 1;
                      vars := {| n_chunks := n_chunks st; did := d |} |}) as Estep.
    { unfold Results.step_of, step. cbn [at_pc vars].
      destruct (MtFill.extend_dataset _ _) as [r d]. destruct (r <? 0); reflexivity. }
    rewrite Estep. clear Estep.
    destruct (MtFill.extend_dataset (did st) (new_size 10 st)) as [r1 d1].
    destruct (r1 <? 0).
    + rewrite vars_frozen; [reflexivity|reflexivity|discriminate|discriminate].
    + rewrite pending_write_completes; [|reflexivity|reflexivity|lia].
      unfold Results.step_of, step, write_offset. cbn [at_pc vars did n_chunks].
      destruct (Results.direct_write_of p d1 _) as [r2 d2]. destruct (r2 <? 0); reflexivity.
  - rewrite handler_when_set by exact H. apply IH; assumption.
Qed.

(** With [stop] clear, four steps from the loop test are one iteration of the
    loop body: the two views of the loop agree. *)
Lemma four_steps_are_one_cycle (c : config) :
  at_pc c = AtWhile -> stop c = 0 ->
  vars (Results.run_of p c [Tick; Tick; Tick; Tick]) = snd (Results.loop_body_of p (vars c)).
Proof.
  rewrite loop_body_of_eq, run_of_eq.
  destruct c as [pc0 s st]. cbn [at_pc stop vars]. intros -> ->.
  unfold run, loop_body. cbn [fold_left deliver].
  unfold step at 4. cbn [at_pc stop vars Z.eqb goto].
  unfold step at 3. cbn [at_pc stop vars goto].
  destruct (MtFill.extend_dataset (did st) (new_size 10 st)) as [r1 d1].
  destruct (r1 <? 0); [reflexivity|].
  unfold step at 2. cbn [at_pc stop vars goto did n_chunks]. unfold write_offset.
  cbn [n_chunks did].
  destruct (Results.direct_write_of p d1 _) as [r2 d2].
  destruct (r2 <? 0); reflexivity.
Qed.

End Cancellation.

(** C7.  Take any run of either program up to a point where [stop] is set
    (SIGINT has been delivered, at whatever program point), and any
    continuation.  No new cycle begins in the continuation.  A cycle that was
    in progress is carried out as a whole: caught before the extend, the
    variables end as one full iteration of the loop body leaves them (done, or
    failed with the dataset as the failing call left it); caught before the
    write, the pending [direct_write] is carried out once.  After at most four
    more program steps the loop has been left, normally or through
    [badness].  At every point the chunk index holds only whole chunks: each
    entry is exactly the chunk [direct_write] hands over for its offset.  And
    the flag is read at the loop test only: at any other program point a step
    does the same whether the handler runs before or after it. *)
Theorem stop_is_honoured_between_cycles (p : Results.program) (before after : list event) :
  let c := Results.run_of p Results.start before in
  stop c <> 0 ->
  Results.cycles_started_of p c after = 0%nat /\
  (at_pc c = AtExtend -> (2 <= ticks after)%nat ->
     vars (Results.run_of p c after) = snd (Results.loop_body_of p (vars c))) /\
  (at_pc c = AtWrite -> (1 <= ticks after)%nat ->
     vars (Results.run_of p c after) = vars (Results.step_of p c)) /\
  ((4 <= ticks after)%nat -> halted (Results.run_of p c after)) /\
  untorn (Results.args_of p) (did (vars (Results.run_of p c after))) /\
  (forall c', at_pc c' <> AtWhile ->
     Results.step_of p (ctrl_c_handler c') = ctrl_c_handler (Results.step_of p c')).
Proof.
  intros c Hs.
  destruct (reachable_invariant p before) as [Hi Hu]. fold c in Hi, Hu.
  assert (stop c = 1) as H1.
  { destruct Hi as (_ & _ & [H0|H1] & _); [contradiction|exact H1]. }
  split; [apply no_cycle_starts, H1|].
  split; [intros; apply pending_cycle_completes; assumption|].
  split; [intros; apply pending_write_completes; assumption|].
  split; [intros; apply exits_within_four_steps; assumption|].
  split; [apply run_invariant; assumption|].
  apply step_ignores_stop.
Qed.

Lemma stop_is_honoured_between_cycles_witness :
  let before := [Tick; Tick; Tick; Tick; Tick; Sigint] in
  let after := [Tick; Sigint; Tick; Tick; Tick] in
  let c := Results.run_of (Results.mt_fill Libc.plentiful) Results.start before in
  at_pc c = AtExtend /\ stop c = 1 /\
  Results.cycles_started_of (Results.mt_fill Libc.plentiful) c after = 0%nat /\
  halted (Results.run_of (Results.mt_fill Libc.plentiful) c after) /\
  n_chunks (vars (Results.run_of (Results.mt_fill Libc.plentiful) c after)) = 2.
Proof.
  cbn zeta.
  set (c := Results.run_of (Results.mt_fill Libc.plentiful) Results.start
              [Tick; Tick; Tick; Tick; Tick; Sigint]).
  assert (stop c <> 0) as Hs by (vm_compute; discriminate).
  destruct (stop_is_honoured_between_cycles (Results.mt_fill Libc.plentiful)
              [Tick; Tick; Tick; Tick; Tick; Sigint]
              [Tick; Sigint; Tick; Tick; Tick] Hs) as (H0 & _ & _ & Hh & _).
  split; [vm_compute; reflexivity|]. split; [vm_compute; reflexivity|].
  split; [exact H0|]. split; [apply Hh; cbn; lia|]. vm_compute. reflexivity.
Defined.

(** ** The dataset after [N] cycles *)

Section CycleFacts.

Lemma loop_body_status cs ext dw (st st' : main_state) (r : Z) :
  loop_body cs ext dw st = (r, st') -> (r <? 0) = false -> r = 0.
Proof.
  unfold loop_body. destruct (ext _ _) as [r1 d1]. destruct (r1 <? 0) eqn:E1.
  - intros [= <- <-]. congruence.
  - destruct (dw _ _) as [r2 d2]. destruct (r2 <? 0) eqn:E2.
    + intros [= <- <-]. congruence.
    + intros [= <- <-]. reflexivity.
Qed.

(** [N + 1] iterations are [N] iterations and one more. *)
Lemma run_cycles_snoc cs ext dw (N : nat) (st : main_state) :
  run_cycles cs ext dw (S N) st =
  let '(r, st') := run_cycles cs ext dw N st in
  if r <? 0 then (r, st') else loop_body cs ext dw st'.
Proof.
  revert st. induction N as [|N IH]; intros st.
  - cbn [run_cycles]. destruct (loop_body cs ext dw st) as [r st'] eqn:El.
    destruct (r <? 0) eqn:E; [reflexivity|].
    rewrite (loop_body_status _ _ _ _ _ _ El E). reflexivity.
  - change (run_cycles cs ext dw (S (S N)) st)
      with (let '(r, st') := loop_body cs ext dw st in
            if r <? 0 then (r, st') else run_cycles cs ext dw (S N) st').
    change (run_cycles cs ext dw (S N) st)
      with (let '(r, st') := loop_body cs ext dw st in
            if r <? 0 then (r, st') else run_cycles cs ext dw N st').
    destruct (loop_body cs ext dw st) as [r st']. destruct (r <? 0) eqn:E.
    + rewrite E. reflexivity.
    + apply IH.
Qed.

Lemma raw_chunk_upsert (d : H5.hid_t) (o : Z) :
  Engine.upsert d o (CInt.ints_to_bytes (replicate 10 (MtFill.chunk_value o))) 0
  = {| Engine.logical_length := Engine.logical_length d;
       Engine.chunk_size := Engine.chunk_size d;
       Engine.element_width := Engine.element_width d;
       Engine.fill_value := Engine.fill_value d;
       Engine.index := <[ o := Results.raw_chunk (o / 10) ]> (Engine.index d) |}.
Proof. reflexivity. Qed.

(** One more cycle of [MtFill], below the 64-bit wrap of the sizes, when
    [malloc] gives [direct_write] its buffer. *)
Lemma mtfill_loop_body (heap : Libc.heap_t) (N : nat) :
  (Z.of_nat N + 1) * 10 < 2 ^ 64 ->
  heap (Z.of_nat N * 10) 40 = true ->
  MtFill.loop_body heap {| n_chunks := Z.of_nat N; did := Results.dataset_after N |}
  = (0, {| n_chunks := Z.of_nat (S N); did := Results.dataset_after (S N) |}).
Proof.
  intros Hb Hm. unfold MtFill.loop_body, loop_body. cbn [did n_chunks].
  destruct (extend_step (Results.dataset_after N) (Z.of_nat N))
    as [(Hge & _)|(_ & Esz & d' & E & Ee)]; [lia|reflexivity|lia|lia|].
  unfold new_size. cbn [n_chunks]. change MtFill.CHUNK_SIZE with 10. rewrite E.
  cbn [Z.ltb Z.compare]. unfold write_offset. cbn [n_chunks].
  rewrite (wrap64_small (Z.of_nat N * 10)) by lia.
  rewrite mtfill_direct_write by exact Hm.
  unfold Engine.extend in Ee. rewrite Esz in Ee.
  destruct (_ <? _) in Ee; [discriminate|]. injection Ee as <-.
  rewrite write_chunk_ok.
  - cbn [Z.ltb Z.compare]. rewrite (wrap64_small (Z.of_nat N + 1)) by lia.
    rewrite raw_chunk_upsert. rewrite Z.div_mul by lia.
    replace (Z.of_nat N + 1) with (Z.of_nat (S N)) by lia.
    unfold Results.dataset_after. cbn [Results.chunks_upto Engine.logical_length
      Engine.chunk_size Engine.element_width Engine.fill_value Engine.index].
    change MtFill.CHUNK_SIZE with 10.
    replace (Z.of_nat (S N)) with (Z.of_nat N + 1) by lia. reflexivity.
  - cbn [Engine.chunk_size Results.dataset_after]. apply Z.mod_mul. discriminate.
  - cbn [Engine.chunk_size Engine.logical_length Results.dataset_after].
    change MtFill.CHUNK_SIZE with 10. lia.
  - rewrite length_ints_to_bytes, length_replicate. vm_compute. discriminate.
Qed.

(** [N] cycles of [MtFill] all succeed, as long as the sizes fit 64 bits and
    no [malloc] fails. *)
Lemma mtfill_run_cycles (heap : Libc.heap_t) (N : nat) :
  Z.of_nat N * 10 < 2 ^ 64 ->
  (forall k : nat, (k < N)%nat -> heap (Z.of_nat k * 10) 40 = true) ->
  MtFill.run_cycles heap N {| n_chunks := 0; did := MtFill.dataset0 |}
  = (0, {| n_chunks := Z.of_nat N; did := Results.dataset_after N |}).
Proof.
  induction N as [|N IH]; intros Hb Hm; [reflexivity|].
  unfold MtFill.run_cycles in *. rewrite run_cycles_snoc, IH by (try lia; intros; apply Hm; lia).
  cbn [Z.ltb Z.compare]. apply mtfill_loop_body; [lia|apply Hm; lia].
Qed.

Lemma chunks_upto_lookup (N : nat) (k : Z) :
  0 <= k < Z.of_nat N ->
  Results.chunks_upto N !! (k * 10) = Some (Results.raw_chunk k).
Proof.
  induction N as [|N IH]; intros Hk; [lia|].
  cbn [Results.chunks_upto]. change MtFill.CHUNK_SIZE with 10.
  destruct (decide (k = Z.of_nat N)) as [->|Hne].
  - apply lookup_insert_eq.
  - rewrite lookup_insert_ne by lia. apply IH. lia.
Qed.

(** Chunk [k] of [MtFill] reads back as ten copies of [(int)k]. *)
Lemma read_raw_chunk (N : nat) (k : Z) :
  0 <= k < Z.of_nat N ->
  MtFill.read_chunk (Results.dataset_after N) (k * 10)
  = Some (replicate 10 (CInt.to_int k)).
Proof.
  intros Hk. unfold MtFill.read_chunk, Engine.read_chunk, Engine.lookup.
  cbn [Results.dataset_after Engine.index]. rewrite chunks_upto_lookup by exact Hk.
  cbn [Results.raw_chunk Engine.encoded_payload].
  change (Z.to_nat MtFill.CHUNK_SIZE) with 10%nat.
  apply ints_bytes_roundtrip. apply Forall_replicate. apply to_int_range.
Qed.

(** Up to [INT_MAX + 1] cycles, [MtFill] leaves the dataset the scenario
    describes: [N * CHUNK_SIZE] elements, chunk [k] all equal to [k]. *)
Lemma mtfill_cycles_within_int (N : nat) (k : Z) :
  Z.of_nat N <= CInt.INT_MAX + 1 -> 0 <= k < Z.of_nat N ->
  exists st,
    MtFill.run_cycles Libc.plentiful N {| n_chunks := 0; did := MtFill.dataset0 |} = (0, st) /\
    Engine.logical_length (did st) = Z.of_nat N * MtFill.CHUNK_SIZE /\
    MtFill.read_chunk (did st) (k * MtFill.CHUNK_SIZE) = Some (replicate 10 k).
Proof.
  intros HN Hk. unfold CInt.INT_MAX in HN. eexists.
  split; [apply mtfill_run_cycles; [lia|reflexivity]|].
  cbn [did]. split; [reflexivity|]. change MtFill.CHUNK_SIZE with 10.
  rewrite read_raw_chunk by exact Hk. rewrite to_int_id; [reflexivity|].
  unfold CInt.INT_MIN, CInt.INT_MAX. lia.
Qed.

(** The first cycle of [Writer] extends the dataset and then fails in
    [direct_write], whatever the allocator and [compress2] return. *)
Lemma writer_first_cycle (heap : Libc.heap_t) (compress2 : Zlib.compress2_t) :
  Writer.run_cycles heap compress2 1 {| n_chunks := 0; did := Writer.dataset0 |}
  = (-1, {| n_chunks := 0; did := Results.unwritten 10 |}).
Proof.
  unfold Writer.run_cycles, run_cycles, loop_body. cbn [did n_chunks].
  change (Writer.extend_dataset Writer.dataset0
            (new_size Writer.CHUNK_SIZE {| n_chunks := 0; did := Writer.dataset0 |}))
    with (0, Results.unwritten 10).
  cbn [Z.ltb Z.compare]. rewrite writer_direct_write_fails by (split; reflexivity).
  reflexivity.
Qed.

End CycleFacts.

(** C3, where the programs part from it.  [MtFill], on an allocator that
    never fails: 2147483649 cycles all succeed and the logical length is
    2147483649 * CHUNK_SIZE, but chunk 2147483648 reads back as ten copies of
    -2147483648, not of 2147483648: the fill value is the chunk number
    converted to [int], and the "more than INT_MAX chunks" test never stops
    the loop.  [Writer], with any allocator and any [compress2]: the first
    cycle already fails in [direct_write] after its extend, so the length is
    1 * CHUNK_SIZE and chunk 0 is absent. *)
Theorem chunk_value_wraps_past_int_max (heap : Libc.heap_t) (compress2 : Zlib.compress2_t) :
  let N := 2147483649 in
  let k := 2147483648 in
  (exists st,
     MtFill.run_cycles Libc.plentiful (Z.to_nat N)
       {| n_chunks := 0; did := MtFill.dataset0 |} = (0, st) /\
     n_chunks st = N /\
     Engine.logical_length (did st) = N * MtFill.CHUNK_SIZE /\
     MtFill.read_chunk (did st) (k * MtFill.CHUNK_SIZE)
       = Some (replicate 10 (-2147483648))) /\
  (exists st,
     Writer.run_cycles heap compress2 1 {| n_chunks := 0; did := Writer.dataset0 |}
       = (-1, st) /\
     Engine.logical_length (did st) = 1 * Writer.CHUNK_SIZE /\
     Engine.lookup (did st) 0 = None).
Proof.
  cbn zeta. split.
  - eexists. split; [apply mtfill_run_cycles; [lia|reflexivity]|]. cbn [n_chunks did].
    split; [lia|]. split; [unfold Results.dataset_after; cbn [Engine.logical_length]; lia|].
    change MtFill.CHUNK_SIZE with 10. rewrite read_raw_chunk by lia. reflexivity.
  - eexists. split; [apply writer_first_cycle|]. split; reflexivity.
Qed.

(** C9, where the programs part from it.  After one cycle each, from the
    same empty dataset: [MtFill], given its buffer, has succeeded and chunk 0
    reads as ten zeros; [Writer], with any allocator and any [compress2], has
    failed, chunk 0 is absent and reads, under any decoder, as ten copies of
    the fill value -1.  Indeed no
    [direct_write] of [Writer] on a dataset of the programs' shape succeeds:
    the payload it hands over is always 53 bytes.  And for chunk number
    2147483648 both programs fill the chunk with -2147483648, not with the
    chunk number. *)
Theorem variants_differ_on_first_chunk (heap : Libc.heap_t) (compress2 : Zlib.compress2_t) :
  let raw := MtFill.run_cycles Libc.plentiful 1 {| n_chunks := 0; did := MtFill.dataset0 |} in
  let deflated :=
    Writer.run_cycles heap compress2 1 {| n_chunks := 0; did := Writer.dataset0 |} in
  fst raw = 0 /\
  MtFill.read_chunk (did (snd raw)) 0 = Some (replicate 10 0) /\
  fst deflated = -1 /\
  Engine.lookup (did (snd deflated)) 0 = None /\
  (forall decode, Engine.read_chunk decode (did (snd deflated)) 0 = Some (replicate 10 (-1))) /\
  (forall d offset, Results.demo_dataset d ->
     Writer.direct_write heap compress2 d offset = (Writer.FAIL, d)) /\
  MtFill.chunk_value (2147483648 * MtFill.CHUNK_SIZE) = -2147483648 /\
  Writer.chunk_value (2147483648 * Writer.CHUNK_SIZE) = -2147483648.
Proof.
  cbn zeta. rewrite writer_first_cycle.
  split; [reflexivity|]. split; [vm_compute; reflexivity|]. split; [reflexivity|].
  split; [reflexivity|]. split; [reflexivity|].
  split; [|split; vm_compute; reflexivity].
  intros d offset Hd. apply writer_direct_write_fails, Hd.
Qed.


(* ===================================================================== *)
(** * Further results on the two programs *)
(* ===================================================================== *)

Lemma to_int_eq_iff (a b : Z) :
  CInt.to_int a = CInt.to_int b <-> (a - b) mod 2 ^ 32 = 0.
Proof.
  unfold CInt.to_int. split; intros H.
  - Z.div_mod_to_equations. lia.
  - assert ((a + 2 ^ 31) mod 2 ^ 32 = (b + 2 ^ 31) mod 2 ^ 32); [|lia].
    replace (a + 2 ^ 31) with ((b + 2 ^ 31) + (a - b)) by lia.
    rewrite Z.add_mod, H, Z.add_0_r, Z.mod_mod by lia. reflexivity.
Qed.

Lemma int_to_bytes_range (v : Z) : Forall (fun b => 0 <= b < 256) (CInt.int_to_bytes v).
Proof.
  unfold CInt.int_to_bytes. change 255 with (Z.ones 8).
  rewrite !Z.land_ones by lia. repeat constructor; apply Z.mod_pos_bound; lia.
Qed.

Lemma ints_to_bytes_range (l : list Z) : Forall (fun b => 0 <= b < 256) (CInt.ints_to_bytes l).
Proof.
  induction l as [|v l IH]; [constructor|].
  unfold CInt.ints_to_bytes in *. cbn [flat_map]. apply Forall_app. split; [|exact IH].
  apply int_to_bytes_range.
Qed.

Lemma raw_payload_decodes (v : Z) :
  CInt.INT_MIN <= v <= CInt.INT_MAX ->
  CInt.bytes_to_ints (CInt.ints_to_bytes (replicate 10 v)) = Some (replicate 10 v).
Proof. intros H. apply ints_bytes_roundtrip, Forall_replicate, H. Qed.

(** X3.  [direct_write] of [MtFill] reaches its call exactly when
    [malloc] gives it the [CHUNK_SIZE * sizeof(int)] bytes it asks for, whatever
    the offset; when [malloc] returns [NULL] it returns [FAIL] and the dataset
    is as it was.  At the call it passes the offset it was given, filter mask 0
    and a byte count of [CHUNK_SIZE * sizeof(int)]; the payload has that many
    bytes, each in [0, 256), and reads back as [CHUNK_SIZE] ints all equal to
    [(int)(offset / CHUNK_SIZE)], which is the chunk number itself for chunk
    numbers from 0 to [INT_MAX]. *)
Theorem mtfill_payload_decodes (heap : Libc.heap_t) (offset : Z) :
  (is_Some (MtFill.direct_write_args heap offset)
   <-> heap offset (MtFill.CHUNK_SIZE * CInt.sizeof_int) = true) /\
  (forall did, heap offset (MtFill.CHUNK_SIZE * CInt.sizeof_int) = false ->
     MtFill.direct_write_args heap offset = None /\
     MtFill.direct_write heap did offset = (MtFill.FAIL, did)) /\
  (forall c, MtFill.direct_write_args heap offset = Some c ->
     wc_offset c = offset /\ wc_filters c = 0 /\
     wc_data_size c = MtFill.CHUNK_SIZE * CInt.sizeof_int /\
     Z.of_nat (length (handed_payload c)) = wc_data_size c /\
     Forall (fun b => 0 <= b < 256) (handed_payload c) /\
     CInt.bytes_to_ints (handed_payload c)
       = Some (replicate (Z.to_nat MtFill.CHUNK_SIZE) (MtFill.chunk_value offset)) /\
     (0 <= offset / MtFill.CHUNK_SIZE <= CInt.INT_MAX ->
      CInt.bytes_to_ints (handed_payload c)
        = Some (replicate (Z.to_nat MtFill.CHUNK_SIZE) (offset / MtFill.CHUNK_SIZE)))).
Proof.
  change (MtFill.CHUNK_SIZE * CInt.sizeof_int) with 40.
  split.
  { rewrite mtfill_args_eq. destruct (heap offset 40).
    - split; [reflexivity|eauto].
    - split; [intros [c Hc]; discriminate Hc|discriminate]. }
  split.
  { intros d Hm. split; [rewrite mtfill_args_eq, Hm; reflexivity|].
    apply mtfill_direct_write_no_memory, Hm. }
  intros c Hc.
  destruct (mtfill_handed_payload heap offset c Hc) as (Hp & Hl & Hm).
  apply mtfill_args_inv in Hc as [_ ->].
  rewrite Hp. cbn [wc_offset wc_filters wc_data_size].
  assert (CInt.bytes_to_ints (CInt.ints_to_bytes (replicate 10 (MtFill.chunk_value offset)))
          = Some (replicate 10 (MtFill.chunk_value offset))) as Hd
    by (apply raw_payload_decodes, to_int_range).
  split; [reflexivity|]. split; [reflexivity|]. split; [reflexivity|].
  split; [rewrite length_ints_to_bytes, length_replicate; reflexivity|].
  split; [apply ints_to_bytes_range|]. split; [exact Hd|].
  intros H. rewrite Hd. unfold MtFill.chunk_value. rewrite to_int_id; [reflexivity|].
  unfold CInt.INT_MIN. lia.
Qed.

(** X4.  The fill value tells chunks apart only modulo 2^32: two offsets get
    the same fill value exactly when their chunk numbers differ by a multiple
    of 2^32, and the payloads [MtFill] hands over for two offsets (in any two
    calls that reach [H5Dwrite_chunk]) are the same exactly when their fill
    values agree; so the chunk 2^32 chunks further on gets
    the payload of this one.  [Writer] computes the same fill value. *)
Theorem fill_value_identifies_chunk_modulo_2_32 (o1 o2 : Z) :
  (MtFill.chunk_value o1 = MtFill.chunk_value o2
   <-> (o1 / MtFill.CHUNK_SIZE - o2 / MtFill.CHUNK_SIZE) mod 2 ^ 32 = 0) /\
  (forall heap1 heap2 c1 c2,
     MtFill.direct_write_args heap1 o1 = Some c1 ->
     MtFill.direct_write_args heap2 o2 = Some c2 ->
     (handed_payload c1 = handed_payload c2
      <-> MtFill.chunk_value o1 = MtFill.chunk_value o2)) /\
  (handed_payload <$> MtFill.direct_write_args Libc.plentiful o1
   = handed_payload <$> MtFill.direct_write_args Libc.plentiful o2
   <-> MtFill.chunk_value o1 = MtFill.chunk_value o2) /\
  Writer.chunk_value o1 = MtFill.chunk_value o1 /\
  MtFill.chunk_value (o1 + 2 ^ 32 * MtFill.CHUNK_SIZE) = MtFill.chunk_value o1.
Proof.
  assert (forall heap1 heap2 c1 c2,
            MtFill.direct_write_args heap1 o1 = Some c1 ->
            MtFill.direct_write_args heap2 o2 = Some c2 ->
            (handed_payload c1 = handed_payload c2
             <-> MtFill.chunk_value o1 = MtFill.chunk_value o2)) as Hpay.
  { intros heap1 heap2 c1 c2 H1 H2.
    destruct (mtfill_handed_payload heap1 o1 c1 H1) as (-> & _ & _).
    destruct (mtfill_handed_payload heap2 o2 c2 H2) as (-> & _ & _).
    split.
    - intros H. apply (f_equal CInt.bytes_to_ints) in H.
      rewrite !raw_payload_decodes in H by apply to_int_range.
      assert (replicate 10 (MtFill.chunk_value o1) !! 0%nat
              = replicate 10 (MtFill.chunk_value o2) !! 0%nat) as H0 by congruence.
      cbn in H0. congruence.
    - intros ->. reflexivity. }
  split; [apply to_int_eq_iff|]. split; [exact Hpay|]. split; [|split; [reflexivity|]].
  - rewrite <- (Hpay Libc.plentiful Libc.plentiful _ _
                  (mtfill_args Libc.plentiful o1 eq_refl) (mtfill_args Libc.plentiful o2 eq_refl)).
    rewrite !mtfill_args by reflexivity. cbn [fmap option_fmap option_map].
    split; [intros H; congruence|intros ->; reflexivity].
  - apply to_int_eq_iff. change MtFill.CHUNK_SIZE with 10.
    replace (o1 + 2 ^ 32 * 10) with (o1 + 2 ^ 32 * 10) by lia.
    rewrite Z.div_add by lia. replace (o1 / 10 + 2 ^ 32 - o1 / 10) with (1 * 2 ^ 32) by lia.
    apply Z.mod_mul. lia.
Qed.

(** X2.  The fill loop overwrites the whole buffer: for a buffer of
    [CHUNK_SIZE] ints, as [malloc(buf_size)] returns when it succeeds, the
    result is
    [CHUNK_SIZE] copies of the value whatever the buffer held before, in both
    programs; nothing of the indeterminate contents of the allocation reaches
    the payload. *)
Theorem fill_loop_hides_malloc_contents (value : Z) (buf buf' : list Z) :
  length buf = Z.to_nat MtFill.CHUNK_SIZE ->
  length buf' = Z.to_nat MtFill.CHUNK_SIZE ->
  MtFill.fill_loop value buf = replicate (Z.to_nat MtFill.CHUNK_SIZE) value /\
  MtFill.fill_loop value buf' = MtFill.fill_loop value buf /\
  Writer.fill_loop value buf = replicate (Z.to_nat Writer.CHUNK_SIZE) value /\
  Writer.fill_loop value buf' = Writer.fill_loop value buf /\
  (forall available buf0,
     Libc.malloc_ints available (CInt.wrap64 (MtFill.buf_size * CInt.sizeof_char)) = Some buf0 ->
     length buf0 = Z.to_nat MtFill.CHUNK_SIZE).
Proof.
  intros H H'. change (Z.to_nat MtFill.CHUNK_SIZE) with 10%nat in *.
  change (Z.to_nat Writer.CHUNK_SIZE) with 10%nat.
  rewrite ?fill_loop_any, ?writer_fill_loop_any by assumption.
  repeat split; try reflexivity.
  intros available buf0. unfold Libc.malloc_ints.
  destruct (available _); [|discriminate]. intros E.
  assert (buf0 = replicate 10 0) as -> by (vm_compute in E; injection E as <-; reflexivity).
  reflexivity.
Qed.

Lemma fill_loop_hides_malloc_contents_witness :
  MtFill.fill_loop 7 [1; 2; 3; 4; 5; 6; 7; 8; 9; 10] = replicate 10 7 /\
  MtFill.fill_loop 7 (replicate 10 0) = MtFill.fill_loop 7 [1; 2; 3; 4; 5; 6; 7; 8; 9; 10].
Proof.
  destruct (fill_loop_hides_malloc_contents 7 [1; 2; 3; 4; 5; 6; 7; 8; 9; 10]
              (replicate 10 0) eq_refl eq_refl) as (H1 & H2 & _).
  split; [exact H1|exact H2].
Defined.

(** X1.  How [direct_write] of [Writer] leaves, by what the allocator and
    [compress2] return for the chunk.  It reaches [H5Dwrite_chunk] exactly
    when [malloc] gives the [buf_size] bytes, [calloc] the [buf_out_size]
    bytes, and [compress2] returns [Z_OK] with at most [buf_size] bytes.  A
    [NULL] from [malloc] or from [calloc] takes the silent exits; with both
    buffers, [Z_BUF_ERROR] takes the "overflow" exit, [Z_MEM_ERROR] the
    "deflate memory error" exit, any other status but [Z_OK] the "other
    deflate error" exit, and [Z_OK] with more than [buf_size] bytes the
    "larger than the chunk" exit.  When the call is not reached,
    [direct_write] returns [FAIL] and the dataset is as it was; when it is,
    the call carries filter mask 0 and the offset given. *)
Theorem writer_reaches_call_iff (heap : Libc.heap_t) (compress2 : Zlib.compress2_t)
  (offset : Z) (did : H5.hid_t) :
  let got_buf := heap offset (Writer.buf_size * CInt.sizeof_char) in
  let got_buf_out := heap offset (Writer.buf_out_size * CInt.sizeof_char) in
  let r := compress2 Writer.buf_out_size
             (CInt.ints_to_bytes (replicate (Z.to_nat Writer.CHUNK_SIZE)
                                    (Writer.chunk_value offset)))
             Writer.buf_size Writer.COMPRESSION_LEVEL in
  (is_Some (Writer.direct_write_args heap compress2 offset)
   <-> got_buf = true /\ got_buf_out = true /\
       fst r = Zlib.Z_OK /\ Z.of_nat (length (snd r)) <= Writer.buf_size) /\
  (got_buf = false -> Writer.encode_chunk heap compress2 offset = Writer.NoBuffer) /\
  (got_buf = true -> got_buf_out = false ->
   Writer.encode_chunk heap compress2 offset = Writer.NoOutputBuffer) /\
  (got_buf = true -> got_buf_out = true ->
   (fst r = Zlib.Z_BUF_ERROR -> Writer.encode_chunk heap compress2 offset = Writer.Overflow) /\
   (fst r = Zlib.Z_MEM_ERROR ->
    Writer.encode_chunk heap compress2 offset = Writer.DeflateMemoryError) /\
   (fst r <> Zlib.Z_OK -> fst r <> Zlib.Z_BUF_ERROR -> fst r <> Zlib.Z_MEM_ERROR ->
    Writer.encode_chunk heap compress2 offset = Writer.OtherDeflateError) /\
   (fst r = Zlib.Z_OK -> Writer.buf_size < Z.of_nat (length (snd r)) ->
    Writer.encode_chunk heap compress2 offset
      = Writer.LargerThanChunk (Z.of_nat (length (snd r))))) /\
  (Writer.direct_write_args heap compress2 offset = None ->
   Writer.direct_write heap compress2 did offset = (Writer.FAIL, did)) /\
  (forall c, Writer.direct_write_args heap compress2 offset = Some c ->
     wc_filters c = 0 /\ wc_offset c = offset).
Proof.
  cbn zeta. rewrite buf_out_size_eq, buf_size_eq.
  change (Z.to_nat Writer.CHUNK_SIZE) with 10%nat.
  change (40 * CInt.sizeof_char) with 40. change (53 * CInt.sizeof_char) with 53.
  unfold Writer.direct_write, Writer.direct_write_args. rewrite encode_chunk_eq.
  destruct (heap offset 40).
  2: { split; [split; [intros [c Hc]; discriminate Hc|intros (H & _); discriminate H]|].
       repeat split; intros; congruence. }
  destruct (heap offset 53).
  2: { split; [split; [intros [c Hc]; discriminate Hc|intros (_ & H & _); discriminate H]|].
       repeat split; intros; congruence. }
  destruct (compress2 53 _ 40 Writer.COMPRESSION_LEVEL) as [z_ret written].
  cbn [fst snd]. unfold Zlib.Z_OK, Zlib.Z_BUF_ERROR, Zlib.Z_MEM_ERROR.
  destruct (z_ret =? -5) eqn:E1; [|destruct (z_ret =? -4) eqn:E2;
    [|destruct (z_ret =? 0) eqn:E3; cbn [negb];
      [destruct (Z.of_nat (length written) >? 40) eqn:E4|]]].
  all: repeat split; try (intros; first [discriminate | lia | reflexivity | congruence]).
  all: try (intros [c Hc]; discriminate).
  all: try (intros; cbn; eauto; fail).
  all: try (match goal with H : is_Some None |- _ => destruct H as [? H]; discriminate H end).
  all: try lia.
  all: match goal with H : Some _ = Some ?c |- _ => injection H as <-; reflexivity end.
Qed.

(** X5.  What [Writer] compresses is what [MtFill] writes: for the same
    offset, when both reach their call, [compress2] was applied, with
    capacity [buf_out_size] and [COMPRESSION_LEVEL], to exactly the payload
    (and byte count) [MtFill] hands over raw, it returned [Z_OK], and the bytes
    it produced are the head of [Writer]'s payload; offset and filter mask are
    the same in both calls. *)
Theorem writer_compresses_the_raw_chunk (heap heap_raw : Libc.heap_t)
  (compress2 : Zlib.compress2_t) (offset : Z) (c c_raw : write_chunk_call) :
  Writer.direct_write_args heap compress2 offset = Some c ->
  MtFill.direct_write_args heap_raw offset = Some c_raw ->
  exists written,
    compress2 Writer.buf_out_size (handed_payload c_raw) (wc_data_size c_raw)
      Writer.COMPRESSION_LEVEL = (Zlib.Z_OK, written) /\
    take (length written) (handed_payload c) = written /\
    Z.of_nat (length written) <= wc_data_size c_raw /\
    wc_offset c = wc_offset c_raw /\ wc_filters c = wc_filters c_raw.
Proof.
  intros H Hraw. apply writer_args_call, encode_chunk_call in H.
  destruct H as (written & Hc & Hlen & ->).
  destruct (mtfill_handed_payload heap_raw offset c_raw Hraw) as (Hp & _ & Hm).
  apply mtfill_args_inv in Hraw as [_ ->].
  exists written. rewrite Hp, buf_out_size_eq. cbn [wc_data_size wc_offset wc_filters].
  split; [exact Hc|]. rewrite padded_payload by exact Hlen.
  split; [apply take_app_length|]. split; [exact Hlen|]. split; reflexivity.
Qed.

Lemma writer_compresses_the_raw_chunk_witness :
  exists c c_raw,
    Writer.direct_write_args Libc.plentiful RunLength.compress2 0 = Some c /\
    MtFill.direct_write_args Libc.plentiful 0 = Some c_raw /\
    RunLength.compress2 53 (handed_payload c_raw) 40 5 = (0, [1; 40; 0]) /\
    take 3 (handed_payload c) = [1; 40; 0].
Proof.
  do 2 eexists.
  assert (Writer.direct_write_args Libc.plentiful RunLength.compress2 0 =
          Some {| wc_filters := 0; wc_offset := 0; wc_data_size := 53;
                  wc_buf := [1; 40; 0] ++ replicate 50 0 |}) as E
    by (vm_compute; reflexivity).
  split; [exact E|]. split; [apply mtfill_args; reflexivity|].
  destruct (writer_compresses_the_raw_chunk Libc.plentiful Libc.plentiful RunLength.compress2
              0 _ _ E (mtfill_args Libc.plentiful 0 eq_refl))
    as (written & Hc & _).
  split; vm_compute; reflexivity.
Defined.

Lemma chunks_upto_fresh (N : nat) (o : Z) :
  Z.of_nat N * 10 <= o -> Results.chunks_upto N !! o = None.
Proof.
  induction N as [|N IH]; intros Ho; [apply lookup_empty|].
  cbn [Results.chunks_upto]. change MtFill.CHUNK_SIZE with 10.
  rewrite lookup_insert_ne by lia. apply IH. lia.
Qed.

(** X15.  The first [malloc] to return [NULL] ends the loop of [MtFill]
    there.  If the allocations of the first [N] cycles succeed and that of the
    next one fails (sizes fitting 64 bits), then [N + 1] iterations of the loop
    body end in failure with [n_chunks] = [N]: the [N] chunks before are
    stored, and the failing cycle has already extended the dataset by one
    chunk, which is left without data and reads as the fill value. *)
Theorem mtfill_stops_at_first_failed_malloc (heap : Libc.heap_t) (N : nat) :
  (Z.of_nat N + 1) * 10 < 2 ^ 64 ->
  (forall k : nat, (k < N)%nat -> heap (Z.of_nat k * 10) 40 = true) ->
  heap (Z.of_nat N * 10) 40 = false ->
  exists st,
    MtFill.run_cycles heap (S N) {| n_chunks := 0; did := MtFill.dataset0 |} = (-1, st) /\
    n_chunks st = Z.of_nat N /\
    Engine.logical_length (did st) = (Z.of_nat N + 1) * MtFill.CHUNK_SIZE /\
    Engine.index (did st) = Results.chunks_upto N /\
    Engine.lookup (did st) (Z.of_nat N * MtFill.CHUNK_SIZE) = None /\
    MtFill.read_chunk (did st) (Z.of_nat N * MtFill.CHUNK_SIZE)
      = Some (replicate (Z.to_nat MtFill.CHUNK_SIZE) MtFill.FILL_VALUE).
Proof.
  intros Hb Hm Hf. unfold MtFill.run_cycles.
  rewrite run_cycles_snoc. fold (MtFill.run_cycles heap N).
  rewrite mtfill_run_cycles by (try lia; exact Hm). cbn [Z.ltb Z.compare].
  unfold loop_body. cbn [did n_chunks].
  destruct (extend_step (Results.dataset_after N) (Z.of_nat N))
    as [(Hge & _)|(_ & Esz & d' & E & Ee)]; [lia|reflexivity|lia|lia|].
  unfold new_size. cbn [n_chunks]. change MtFill.CHUNK_SIZE with 10. rewrite E.
  cbn [Z.ltb Z.compare]. unfold write_offset. cbn [n_chunks].
  rewrite (wrap64_small (Z.of_nat N * 10)) by lia.
  rewrite mtfill_direct_write_no_memory by exact Hf. cbn [Z.ltb Z.compare].
  pose proof Ee as Ee'. apply extend_inr in Ee as (_ & Hl & _ & _ & _ & Hi).
  assert (Engine.lookup d' (Z.of_nat N * 10) = None) as Hnone.
  { unfold Engine.lookup. rewrite Hi. cbn [Results.dataset_after Engine.index].
    apply chunks_upto_fresh. lia. }
  eexists. split; [reflexivity|]. cbn [n_chunks did]. split; [reflexivity|].
  split; [rewrite Hl; exact Esz|]. split; [exact Hi|]. split; [exact Hnone|].
  unfold MtFill.read_chunk, Engine.read_chunk. rewrite Hnone.
  apply extend_inr in Ee' as (_ & _ & -> & _ & -> & _). reflexivity.
Qed.

Lemma mtfill_stops_at_first_failed_malloc_witness :
  let heap : Libc.heap_t := fun offset n => negb (offset =? 20) in
  exists st,
    MtFill.run_cycles heap 3 {| n_chunks := 0; did := MtFill.dataset0 |} = (-1, st) /\
    n_chunks st = 2 /\ Engine.logical_length (did st) = 30 /\
    MtFill.read_chunk (did st) 10 = Some (replicate 10 1) /\
    MtFill.read_chunk (did st) 20 = Some (replicate 10 (-1)).
Proof.
  cbn zeta.
  set (heap := (fun offset n => negb (offset =? 20)) : Libc.heap_t).
  destruct (mtfill_stops_at_first_failed_malloc heap 2) as (st & E & Hn & Hl & Hi & _ & Hr).
  - lia.
  - intros k Hk. destruct k as [|[|k]]; [reflexivity|reflexivity|lia].
  - reflexivity.
  - exists st. split; [exact E|]. split; [exact Hn|]. split; [exact Hl|].
    split; [|exact Hr].
    unfold MtFill.read_chunk, Engine.read_chunk, Engine.lookup. rewrite Hi.
    vm_compute. reflexivity.
Defined.



Section LoopAccounting.

Variable cs : Z.
Variable ext dw : H5.hid_t -> Z -> H5.herr_t * H5.hid_t.

Lemma loop_body_counts (st st' : main_state) (r : Z) :
  loop_body cs ext dw st = (r, st') ->
  (r < 0 /\ n_chunks st' = n_chunks st) \/
  (r = 0 /\ n_chunks st' = CInt.wrap64 (n_chunks st + 1) /\
   write_offset cs st' = new_size cs st /\
   did st' = snd (dw (snd (ext (did st) (new_size cs st))) (write_offset cs st))).
Proof.
  unfold loop_body. destruct (ext _ _) as [r1 d1]. destruct (r1 <? 0) eqn:E1.
  - intros [= <- <-]. left. split; [lia|reflexivity].
  - destruct (dw _ _) as [r2 d2] eqn:Edw. destruct (r2 <? 0) eqn:E2.
    + intros [= <- <-]. left. split; [lia|reflexivity].
    + intros [= <- <-]. right. cbn [n_chunks did snd].
      repeat split. unfold write_offset, new_size, CInt.wrap64. cbn [n_chunks].
      apply Z.mul_mod_idemp_l. lia.
Qed.

Lemma wrap64_add_wrap (a b : Z) : CInt.wrap64 (CInt.wrap64 a + b) = CInt.wrap64 (a + b).
Proof. unfold CInt.wrap64. apply Z.add_mod_idemp_l. lia. Qed.

Lemma wrap64_range (a : Z) : 0 <= CInt.wrap64 a < 2 ^ 64.
Proof. unfold CInt.wrap64. apply Z.mod_pos_bound. lia. Qed.

Lemma write_offset_wrap (st : main_state) (a : Z) :
  n_chunks st = CInt.wrap64 a -> write_offset cs st = CInt.wrap64 (a * cs).
Proof.
  intros H. unfold write_offset. rewrite H. unfold CInt.wrap64.
  apply Z.mul_mod_idemp_l. lia.
Qed.

(** X6.  Whatever the library calls do: [N] iterations of the loop body
    from a state whose [n_chunks] fits 64 bits either all succeed, and then
    [n_chunks] has grown by [N] (modulo 2^64) and the next write offset is
    [(n_chunks + N) * CHUNK_SIZE] (modulo 2^64); or they stop at a failing
    iteration [k < N] with [n_chunks] grown by [k] only. *)
Theorem cycles_advance_by_whole_chunks (N : nat) (st st' : main_state) (r : Z) :
  0 <= n_chunks st < 2 ^ 64 ->
  run_cycles cs ext dw N st = (r, st') ->
  (r = 0 /\
   n_chunks st' = CInt.wrap64 (n_chunks st + Z.of_nat N) /\
   write_offset cs st' = CInt.wrap64 ((n_chunks st + Z.of_nat N) * cs)) \/
  (r < 0 /\
   exists k : nat, (k < N)%nat /\ n_chunks st' = CInt.wrap64 (n_chunks st + Z.of_nat k)).
Proof.
  revert st. induction N as [|N IH]; intros st Hn.
  - cbn [run_cycles]. intros [= <- <-]. left. rewrite Z.add_0_r.
    assert (n_chunks st = CInt.wrap64 (n_chunks st)) as E
      by (symmetry; apply wrap64_small; exact Hn).
    split; [reflexivity|]. split; [exact E|]. apply write_offset_wrap, E.
  - cbn [run_cycles]. destruct (loop_body cs ext dw st) as [r1 st1] eqn:El.
    destruct (loop_body_counts _ _ _ El) as [(Hr & Hk)|(-> & Hk & _)].
    + replace (r1 <? 0) with true by lia. intros [= <- <-]. right. split; [exact Hr|].
      exists 0%nat. split; [lia|]. rewrite Z.add_0_r, Hk. symmetry. apply wrap64_small, Hn.
    + cbn [Z.ltb Z.compare]. intros Hrun.
      assert (0 <= n_chunks st1 < 2 ^ 64) as Hn1 by (rewrite Hk; apply wrap64_range).
      destruct (IH st1 Hn1 Hrun) as [(-> & Hc & Ho)|(Hr & k & Hlt & Hc)].
      * left. rewrite Hk, wrap64_add_wrap in Hc.
        replace (n_chunks st + 1 + Z.of_nat N) with (n_chunks st + Z.of_nat (S N)) in Hc by lia.
        split; [reflexivity|]. split; [exact Hc|]. apply write_offset_wrap, Hc.
      * right. split; [exact Hr|]. exists (S k). split; [lia|].
        rewrite Hk, wrap64_add_wrap in Hc. rewrite Hc. f_equal. lia.
Qed.

End LoopAccounting.

Lemma cycles_advance_by_whole_chunks_witness :
  exists st',
    MtFill.run_cycles Libc.plentiful 3 {| n_chunks := 0; did := MtFill.dataset0 |}
      = (0, st') /\
    n_chunks st' = 3 /\ write_offset MtFill.CHUNK_SIZE st' = 30.
Proof.
  destruct (MtFill.run_cycles Libc.plentiful 3 {| n_chunks := 0; did := MtFill.dataset0 |})
    as [r st'] eqn:E.
  assert (0 <= n_chunks {| n_chunks := 0; did := MtFill.dataset0 |} < 2 ^ 64) as Hn
    by (cbn; lia).
  destruct (cycles_advance_by_whole_chunks MtFill.CHUNK_SIZE MtFill.extend_dataset
              (MtFill.direct_write Libc.plentiful) 3 _ st' r Hn E) as [(-> & Hc & Ho)|(Hr & _)].
  - exists st'. split; [reflexivity|]. split; [exact Hc|exact Ho].
  - exfalso. vm_compute in E. injection E as <- _. lia.
Defined.

(** X7.  In every iteration the size asked of [extend_dataset] is the write
    offset plus one chunk, modulo 2^64.  While offset + chunk size fits 64
    bits it is exactly that; once it does not, the requested size has wrapped:
    it is below the chunk size and below the write offset. *)
Theorem extend_request_is_one_chunk_past_offset (cs : Z) (st : main_state) :
  0 < cs < 2 ^ 64 ->
  let o := write_offset cs st in
  let s := new_size cs st in
  0 <= o < 2 ^ 64 /\ 0 <= s < 2 ^ 64 /\
  s = CInt.wrap64 (o + cs) /\
  (o + cs < 2 ^ 64 -> s = o + cs) /\
  (2 ^ 64 <= o + cs -> s = o + cs - 2 ^ 64 /\ s < o /\ s < cs).
Proof.
  intros Hcs o s.
  assert (s = CInt.wrap64 (o + cs)) as E.
  { unfold s, o, new_size, write_offset. rewrite wrap64_add_wrap. f_equal. lia. }
  pose proof (wrap64_range (n_chunks st * cs)) as Ho. fold (write_offset cs st) in Ho.
  fold o in Ho. split; [exact Ho|]. split; [rewrite E; apply wrap64_range|].
  split; [exact E|]. split.
  - intros H. rewrite E. apply wrap64_small. lia.
  - intros H. assert (s = o + cs - 2 ^ 64) as E'.
    { rewrite E. unfold CInt.wrap64. Z.div_mod_to_equations. lia. }
    lia.
Qed.

Lemma extend_request_is_one_chunk_past_offset_witness :
  let st := {| n_chunks := 1844674407370955161; did := MtFill.dataset0 |} in
  write_offset 10 st = 18446744073709551610 /\ new_size 10 st = 4 /\
  new_size 10 st < write_offset 10 st.
Proof.
  cbn zeta.
  assert (0 < 10 < 2 ^ 64) as Hcs by lia.
  destruct (extend_request_is_one_chunk_past_offset 10
              {| n_chunks := 1844674407370955161; did := MtFill.dataset0 |} Hcs)
    as (_ & _ & _ & _ & Hw).
  assert (write_offset 10 {| n_chunks := 1844674407370955161; did := MtFill.dataset0 |}
          = 18446744073709551610) as Eo by (vm_compute; reflexivity).
  rewrite Eo in Hw. destruct (Hw ltac:(lia)) as (Es & Hlt & _).
  rewrite Eo. split; [reflexivity|]. split; [rewrite Es; reflexivity|exact Hlt].
Defined.

Section LoopControl.

Variable cs : Z.
Variable ext dw : H5.hid_t -> Z -> H5.herr_t * H5.hid_t.

Lemma run_cons (c : config) (e : event) (es : list event) :
  run cs ext dw c (e :: es) = run cs ext dw (deliver cs ext dw c e) es.
Proof. reflexivity. Qed.

Lemma deliver_halted (c : config) (e : event) :
  halted c -> at_pc (deliver cs ext dw c e) = at_pc c /\ vars (deliver cs ext dw c e) = vars c.
Proof.
  destruct c as [pc0 s st]. unfold halted. cbn [at_pc].
  intros [-> | ->]; destruct e; split; reflexivity.
Qed.

Lemma step_stop (c : config) : stop (step cs ext dw c) = stop c.
Proof.
  unfold step. destruct (at_pc c); cbn [goto stop]; try reflexivity.
  - destruct (stop c =? 0); reflexivity.
  - destruct (ext _ _) as [r d]. destruct (r <? 0); reflexivity.
  - destruct (dw _ _) as [r d]. destruct (r <? 0); reflexivity.
Qed.

Lemma step_done (c : config) :
  at_pc (step cs ext dw c) = AtDone -> at_pc c = AtDone \/ stop c <> 0.
Proof.
  destruct c as [pc0 s st]. unfold step. cbn [at_pc stop vars].
  destruct pc0; cbn [goto at_pc]; auto; try discriminate.
  - destruct (s =? 0) eqn:Es; cbn [goto at_pc]; [discriminate|]. intros _. right. lia.
  - destruct (ext _ _) as [r d]. destruct (r <? 0); discriminate.
  - destruct (dw _ _) as [r d]. destruct (r <? 0); discriminate.
Qed.

End LoopControl.

Section AfterTheLoop.

Variable cs : Z.
Variable ext dw : H5.hid_t -> Z -> H5.herr_t * H5.hid_t.

(** Once the loop has been left, normally or through [badness], nothing more
    happens in it. *)
Lemma halted_run (es : list event) (c : config) :
  halted c ->
  at_pc (run cs ext dw c es) = at_pc c /\
  vars (run cs ext dw c es) = vars c /\
  cycles_started cs ext dw c es = 0%nat /\
  Accounting.calls_made cs ext dw c es = 0%nat /\
  Accounting.cycles_completed cs ext dw c es = 0%nat.
Proof.
  revert c. induction es as [|e es IH]; intros c H; [repeat split; reflexivity|].
  rewrite run_cons. destruct (deliver_halted cs ext dw c e H) as [Hpc Hv].
  assert (halted (deliver cs ext dw c e)) as H' by (unfold halted in *; rewrite Hpc; exact H).
  destruct (IH _ H') as (E1 & E2 & E3 & E4 & E5).
  split; [congruence|]. split; [congruence|].
  cbn [cycles_started Accounting.calls_made Accounting.cycles_completed].
  rewrite E3, E4, E5.
  destruct e; [|repeat split; reflexivity].
  destruct H as [H|H]; rewrite H; repeat split; reflexivity.
Qed.

(** The step at a call that fails goes to [badness], with the dataset as
    the call left it. *)
Lemma step_failed_call (c : config) (r : H5.herr_t) (d : H5.hid_t) :
  (at_pc c = AtExtend /\ ext (did (vars c)) (new_size cs (vars c)) = (r, d)) \/
  (at_pc c = AtWrite /\ dw (did (vars c)) (write_offset cs (vars c)) = (r, d)) ->
  r < 0 ->
  step cs ext dw c
  = {| at_pc := AtBadness; stop := stop c;
       vars := {| n_chunks := n_chunks (vars c); did := d |} |}.
Proof.
  destruct c as [pc0 s st]. cbn [at_pc stop vars]. intros [[-> E]|[-> E]] Hr;
    unfold step; cbn [at_pc stop vars]; rewrite E;
    replace (r <? 0) with true by lia; reflexivity.
Qed.

End AfterTheLoop.

(** X8.  A failed [extend_dataset] or [direct_write] is the last call the
    loop makes.  Take the loop at either call, and let the call return a
    negative status: whatever events follow (program steps, SIGINT
    deliveries), the loop is at [badness], [n_chunks] is what it was, the
    dataset is as the failing call left it, and along the whole run exactly
    one call was made, the failing one: no cycle is started or completed after
    it.  More generally, once the loop has been left, normally or through
    [badness], nothing changes the program point or the variables and no call
    is made. *)
Theorem failed_call_is_the_last_call (cs : Z)
  (ext dw : H5.hid_t -> Z -> H5.herr_t * H5.hid_t) (c : config) (es : list event)
  (r : H5.herr_t) (d : H5.hid_t) :
  (at_pc c = AtExtend /\ ext (did (vars c)) (new_size cs (vars c)) = (r, d)) \/
  (at_pc c = AtWrite /\ dw (did (vars c)) (write_offset cs (vars c)) = (r, d)) ->
  r < 0 ->
  let c' := run cs ext dw c (Tick :: es) in
  at_pc c' = AtBadness /\
  n_chunks (vars c') = n_chunks (vars c) /\
  did (vars c') = d /\
  Accounting.calls_made cs ext dw c (Tick :: es) = 1%nat /\
  cycles_started cs ext dw c (Tick :: es) = 0%nat /\
  Accounting.cycles_completed cs ext dw c (Tick :: es) = 0%nat /\
  (forall c0 es0, halted c0 ->
     at_pc (run cs ext dw c0 es0) = at_pc c0 /\
     vars (run cs ext dw c0 es0) = vars c0 /\
     Accounting.calls_made cs ext dw c0 es0 = 0%nat).
Proof.
  intros Hcall Hr c'.
  pose proof (step_failed_call cs ext dw c r d Hcall Hr) as Estep.
  assert (halted (step cs ext dw c)) as Hh by (rewrite Estep; right; reflexivity).
  destruct (halted_run cs ext dw es _ Hh) as (E1 & E2 & E3 & E4 & E5).
  unfold c'. rewrite run_cons. cbn [deliver].
  cbn [cycles_started Accounting.calls_made Accounting.cycles_completed deliver].
  rewrite E1, E2, E3, E4, E5, Estep. cbn [at_pc vars n_chunks did].
  split; [reflexivity|]. split; [reflexivity|]. split; [reflexivity|].
  split; [destruct Hcall as [[-> _]|[-> _]]; reflexivity|].
  split; [destruct Hcall as [[-> _]|[-> _]]; reflexivity|].
  split.
  - destruct Hcall as [[-> _]|[-> E]]; [reflexivity|].
    rewrite E. cbn [fst]. replace (r <? 0) with true by lia. reflexivity.
  - intros c0 es0 H0. destruct (halted_run cs ext dw es0 c0 H0) as (? & ? & _ & ? & _).
    auto.
Qed.

Lemma failed_call_is_the_last_call_witness :
  let heap : Libc.heap_t := fun offset n => negb (offset =? 20) in
  let dw := MtFill.direct_write heap in
  let c := MtFill.run heap (initial MtFill.dataset0)
             [Tick; Tick; Tick; Tick; Tick; Tick; Tick; Tick; Tick; Tick] in
  let c' := Main.run MtFill.CHUNK_SIZE MtFill.extend_dataset dw c
              [Tick; Sigint; Tick; Tick] in
  at_pc c = AtWrite /\ write_offset MtFill.CHUNK_SIZE (vars c) = 20 /\
  fst (dw (did (vars c)) 20) = -1 /\
  at_pc c' = AtBadness /\ n_chunks (vars c') = 2 /\
  Engine.logical_length (did (vars c')) = 30 /\
  Accounting.calls_made MtFill.CHUNK_SIZE MtFill.extend_dataset dw c
    [Tick; Sigint; Tick; Tick] = 1%nat.
Proof.
  cbn zeta.
  set (heap := (fun offset n => negb (offset =? 20)) : Libc.heap_t).
  set (c := MtFill.run heap (initial MtFill.dataset0)
              [Tick; Tick; Tick; Tick; Tick; Tick; Tick; Tick; Tick; Tick]).
  assert (at_pc c = AtWrite) as Hpc by (vm_compute; reflexivity).
  assert (MtFill.direct_write heap (did (vars c)) (write_offset MtFill.CHUNK_SIZE (vars c))
          = (-1, did (vars c))) as Hdw by (vm_compute; reflexivity).
  destruct (failed_call_is_the_last_call MtFill.CHUNK_SIZE MtFill.extend_dataset
              (MtFill.direct_write heap) c [Sigint; Tick; Tick] (-1) (did (vars c))
              (or_intror (conj Hpc Hdw)) ltac:(lia))
    as (H1 & H2 & H3 & H4 & _).
  split; [exact Hpc|]. split; [vm_compute; reflexivity|]. split; [vm_compute; reflexivity|].
  split; [exact H1|]. split; [rewrite H2; vm_compute; reflexivity|].
  split; [rewrite H3; vm_compute; reflexivity|exact H4].
Defined.

Lemma run_tracks_sigint (cs : Z) (ext dw : H5.hid_t -> Z -> H5.herr_t * H5.hid_t)
  (es : list event) (c0 : config) :
  (stop c0 = 0 \/ stop c0 = 1) ->
  (at_pc c0 = AtDone -> stop c0 = 1) ->
  (stop (run cs ext dw c0 es) = 0 \/ stop (run cs ext dw c0 es) = 1) /\
  (stop (run cs ext dw c0 es) = 1 <-> stop c0 = 1 \/ In Sigint es) /\
  (at_pc (run cs ext dw c0 es) = AtDone -> stop (run cs ext dw c0 es) = 1).
Proof.
  revert c0. induction es as [|e es IH]; intros c0 Hs Hd.
  - cbn [run fold_left In]. split; [exact Hs|]. split; [tauto|exact Hd].
  - rewrite run_cons. destruct e; cbn [deliver In].
    + destruct (IH (step cs ext dw c0)) as (H1 & H2 & H3).
      * rewrite step_stop. exact Hs.
      * intros H. rewrite step_stop. destruct (step_done _ _ _ _ H) as [H'|H']; [auto|lia].
      * rewrite step_stop in H2. split; [exact H1|]. split; [|exact H3].
        rewrite H2. split; [intros [?|?]; auto|intros [?|[?|?]]; auto; discriminate].
    + destruct (IH (ctrl_c_handler c0)) as (H1 & H2 & H3).
      * right. reflexivity.
      * intros _. reflexivity.
      * split; [exact H1|]. split; [|exact H3].
        rewrite H2. cbn [ctrl_c_handler stop]. tauto.
Qed.

Lemma done_needs_sigint (cs : Z) (ext dw : H5.hid_t -> Z -> H5.herr_t * H5.hid_t)
  (d : H5.hid_t) (es : list event) :
  at_pc (run cs ext dw (initial d) es) = AtDone -> In Sigint es.
Proof.
  destruct (run_tracks_sigint cs ext dw es (initial d)) as (_ & H2 & H3);
    [left; reflexivity|discriminate|].
  intros H. apply H3, H2 in H. destruct H as [H|H]; [discriminate|exact H].
Qed.

(** X9.  In any run of the loop from its start, whatever the library calls
    do: [stop] is 1 exactly when SIGINT has been delivered, and 0 otherwise
    (nothing clears it); and the loop is left normally only if SIGINT has
    been delivered. *)
Theorem loop_ends_normally_only_on_sigint (cs : Z)
  (ext dw : H5.hid_t -> Z -> H5.herr_t * H5.hid_t) (d : H5.hid_t) (es : list event) :
  let c := run cs ext dw (initial d) es in
  (stop c = 1 <-> In Sigint es) /\
  (stop c = 0 <-> ~ In Sigint es) /\
  (at_pc c = AtDone -> In Sigint es).
Proof.
  cbn zeta.
  destruct (run_tracks_sigint cs ext dw es (initial d)) as (H1 & H2 & H3);
    [left; reflexivity|discriminate|].
  cbn [initial stop] in H2.
  assert (stop (run cs ext dw (initial d) es) = 1 <-> In Sigint es) as H2'.
  { rewrite H2. split; [intros [?|?]; [discriminate|assumption]|auto]. }
  split; [exact H2'|]. split.
  - rewrite <- H2'. lia.
  - apply done_needs_sigint.
Qed.

Section CycleCount.

Variable cs : Z.
Variable ext dw : H5.hid_t -> Z -> H5.herr_t * H5.hid_t.

Lemma deliver_counts (c : config) (e : event) :
  0 <= n_chunks (vars c) < 2 ^ 64 ->
  exists s k : nat,
    match e, at_pc c with
    | Tick, AtWhile => if stop c =? 0 then 1%nat else 0%nat
    | _, _ => 0%nat
    end = s /\
    match e, at_pc c with
    | Tick, AtWrite =>
        if fst (dw (did (vars c)) (write_offset cs (vars c))) <? 0 then 0%nat else 1%nat
    | _, _ => 0%nat
    end = k /\
    (s + Accounting.in_cycle (at_pc c)
     = k + Accounting.in_cycle (at_pc (deliver cs ext dw c e)))%nat /\
    n_chunks (vars (deliver cs ext dw c e)) = CInt.wrap64 (n_chunks (vars c) + Z.of_nat k).
Proof.
  intros Hn. do 2 eexists. split; [reflexivity|]. split; [reflexivity|].
  assert (n_chunks (vars c) = CInt.wrap64 (n_chunks (vars c) + Z.of_nat 0)) as E0.
  { rewrite Z.add_0_r. symmetry. apply wrap64_small, Hn. }
  destruct c as [pc0 s st]. cbn [at_pc stop vars] in *.
  destruct e; cbn [deliver ctrl_c_handler at_pc stop vars].
  - unfold step. cbn [at_pc stop vars]. destruct pc0; cbn [goto at_pc vars Accounting.in_cycle].
    + destruct (s =? 0); split; [reflexivity|exact E0|reflexivity|exact E0].
    + destruct (ext _ _) as [r d]. destruct (r <? 0); split; [reflexivity|exact E0|reflexivity|exact E0].
    + destruct (dw _ _) as [r d]. cbn [fst].
      destruct (r <? 0); split; [reflexivity|exact E0|reflexivity|reflexivity].
    + split; [reflexivity|exact E0].
    + split; [reflexivity|exact E0].
    + split; [reflexivity|exact E0].
  - destruct pc0; split; first [reflexivity|exact E0].
Qed.

Lemma run_counts (es : list event) (c : config) :
  0 <= n_chunks (vars c) < 2 ^ 64 ->
  (cycles_started cs ext dw c es + Accounting.in_cycle (at_pc c)
   = Accounting.cycles_completed cs ext dw c es
     + Accounting.in_cycle (at_pc (run cs ext dw c es)))%nat /\
  n_chunks (vars (run cs ext dw c es))
  = CInt.wrap64 (n_chunks (vars c) + Z.of_nat (Accounting.cycles_completed cs ext dw c es)).
Proof.
  revert c. induction es as [|e es IH]; intros c Hn.
  - cbn [cycles_started Accounting.cycles_completed run fold_left].
    split; [reflexivity|]. rewrite Z.add_0_r. symmetry. apply wrap64_small, Hn.
  - rewrite run_cons. cbn [cycles_started Accounting.cycles_completed].
    destruct (deliver_counts c e Hn) as (s & k & -> & -> & Hc & Hk).
    assert (0 <= n_chunks (vars (deliver cs ext dw c e)) < 2 ^ 64) as Hn'
      by (rewrite Hk; apply wrap64_range).
    destruct (IH _ Hn') as [IH1 IH2]. split; [lia|].
    rewrite IH2, Hk, wrap64_add_wrap. f_equal. lia.
Qed.

End CycleCount.

(** X10.  In any run of the loop from its start, whatever the library calls
    do: [n_chunks] is the number of completed cycles (iterations whose
    [direct_write] did not fail), modulo 2^64; and the cycles started are the
    cycles completed, plus one exactly when a cycle is under way or was
    broken off by a failure.  So at most one started cycle is ever
    incomplete. *)
Theorem n_chunks_counts_completed_cycles (cs : Z)
  (ext dw : H5.hid_t -> Z -> H5.herr_t * H5.hid_t) (d : H5.hid_t) (es : list event) :
  let c := run cs ext dw (initial d) es in
  n_chunks (vars c) = CInt.wrap64 (Z.of_nat (Accounting.cycles_completed cs ext dw (initial d) es)) /\
  cycles_started cs ext dw (initial d) es
  = (Accounting.cycles_completed cs ext dw (initial d) es
     + Accounting.in_cycle (at_pc c))%nat /\
  (Accounting.cycles_completed cs ext dw (initial d) es
   <= cycles_started cs ext dw (initial d) es
   <= S (Accounting.cycles_completed cs ext dw (initial d) es))%nat.
Proof.
  cbn zeta. destruct (run_counts cs ext dw es (initial d)) as [H1 H2]; [cbn; lia|].
  cbn [initial at_pc vars n_chunks Accounting.in_cycle] in H1, H2.
  rewrite Z.add_0_l in H2. rewrite Nat.add_0_r in H1.
  split; [exact H2|]. split; [exact H1|].
  rewrite H1. destruct (at_pc _); cbn [Accounting.in_cycle]; lia.
Qed.

Section AttemptFacts.

Variable ret : Calls.h5_call -> Z.

Lemma attempt_true (body : list (Calls.h5_call * Calls.test)) :
  fst (Calls.attempt ret body) = true <->
  Forall (fun ct => Calls.failed (snd ct) (ret (fst ct)) = false) body.
Proof.
  induction body as [|[c t] body IH]; cbn [Calls.attempt].
  - split; [constructor|reflexivity].
  - destruct (Calls.failed t (ret c)) eqn:E; cbn [fst].
    + split; [discriminate|]. intros H. inversion H as [|? ? H1 _]. cbn in H1. congruence.
    + destruct (Calls.attempt ret body) as [ok tr]. cbn [fst] in *. rewrite IH.
      split; [intros H; constructor; [exact E|exact H]|].
      intros H. inversion H. assumption.
Qed.

Lemma attempt_true_trace (body : list (Calls.h5_call * Calls.test)) :
  fst (Calls.attempt ret body) = true -> snd (Calls.attempt ret body) = map fst body.
Proof.
  induction body as [|[c t] body IH]; cbn [Calls.attempt map]; [reflexivity|].
  destruct (Calls.failed t (ret c)); cbn [fst snd]; [discriminate|].
  destruct (Calls.attempt ret body) as [ok tr]. cbn [fst snd] in *.
  intros H. rewrite IH by exact H. reflexivity.
Qed.

Lemma attempt_false (body : list (Calls.h5_call * Calls.test)) :
  fst (Calls.attempt ret body) = false ->
  exists pre c t post,
    body = pre ++ (c, t) :: post /\
    Forall (fun ct => Calls.failed (snd ct) (ret (fst ct)) = false) pre /\
    Calls.failed t (ret c) = true /\
    snd (Calls.attempt ret body) = map fst pre ++ [c].
Proof.
  induction body as [|[c t] body IH]; cbn [Calls.attempt]; [discriminate|].
  destruct (Calls.failed t (ret c)) eqn:E; cbn [fst snd].
  - intros _. exists [], c, t, body. repeat split; [constructor|exact E].
  - destruct (Calls.attempt ret body) as [ok tr]. cbn [fst snd] in *. intros H.
    destruct (IH H) as (pre & c' & t' & post & -> & Hpre & Hf & ->).
    exists ((c, t) :: pre), c', t', post. repeat split; [|exact Hf].
    constructor; [exact E|exact Hpre].
Qed.

Lemma attempt_trace_calls (body : list (Calls.h5_call * Calls.test)) (c : Calls.h5_call) :
  In c (snd (Calls.attempt ret body)) -> In c (map fst body).
Proof.
  induction body as [|[c' t] body IH]; cbn [Calls.attempt map]; [intros []|].
  destruct (Calls.failed t (ret c')); cbn [snd].
  - intros [->|[]]. left. reflexivity.
  - destruct (Calls.attempt ret body) as [ok tr]. cbn [snd] in *.
    intros [->|H]; [left; reflexivity|right; apply IH, H].
Qed.

End AttemptFacts.

Lemma setup_status (p : Results.program) (ret : Calls.h5_call -> Z) :
  fst (Calls.setup p ret) = (if fst (Calls.attempt ret (Calls.setup_body p)) then 0 else -1) /\
  snd (Calls.setup p ret)
  = (if fst (Calls.attempt ret (Calls.setup_body p))
     then snd (Calls.attempt ret (Calls.setup_body p))
     else snd (Calls.attempt ret (Calls.setup_body p)) ++ Calls.setup_badness).
Proof.
  unfold Calls.setup. destruct (Calls.attempt ret (Calls.setup_body p)) as [[|] tr];
    split; reflexivity.
Qed.

(** X11.  [setup] returns [SUCCEED] or [FAIL], and [SUCCEED] exactly when
    every library call of its body passes the test the code makes on it
    (14 calls in [Writer], 13 in [MtFill]).  It has then made each call once,
    in source order, the last five being the closes of the five
    identifiers. *)
Theorem setup_succeeds_iff_every_call_does (p : Results.program) (ret : Calls.h5_call -> Z) :
  (fst (Calls.setup p ret) = 0 \/ fst (Calls.setup p ret) = -1) /\
  (fst (Calls.setup p ret) = 0 <->
   Forall (fun ct => Calls.failed (snd ct) (ret (fst ct)) = false) (Calls.setup_body p)) /\
  (fst (Calls.setup p ret) = 0 ->
   snd (Calls.setup p ret) = map fst (Calls.setup_body p) /\
   drop (length (Calls.setup_body p) - 5) (snd (Calls.setup p ret)) = Calls.setup_badness) /\
  length (Calls.setup_body p)
  = match p with Results.mt_fill _ => 13%nat | Results.writer _ _ => 14%nat end.
Proof.
  destruct (setup_status p ret) as [Es Et]. rewrite Es, Et. rewrite <- attempt_true.
  destruct (fst (Calls.attempt ret (Calls.setup_body p))) eqn:E.
  - split; [left; reflexivity|]. split; [tauto|]. split; [|destruct p; reflexivity].
    intros _. rewrite attempt_true_trace by exact E. split; [reflexivity|].
    destruct p; reflexivity.
  - split; [right; reflexivity|]. split; [split; discriminate|].
    split; [discriminate|destruct p; reflexivity].
Qed.

Lemma setup_body_shape (p : Results.program) :
  exists config,
    Calls.setup_body p
    = [(Calls.Pcreate_fapl, Calls.IsInvalidHid); (Calls.Pset_libver_bounds, Calls.IsNonzero);
       (Calls.Fcreate, Calls.IsInvalidHid); (Calls.Screate_simple, Calls.IsInvalidHid);
       (Calls.Pcreate_dcpl, Calls.IsInvalidHid)]
      ++ config ++ [(Calls.Dcreate2, Calls.IsInvalidHid)] ++ Calls.setup_shutdown /\
    In (Calls.Pset_chunk, Calls.IsNegative) config /\
    In (Calls.Pset_fill_value, Calls.IsNegative) config /\
    (forall h z, p = Results.writer h z -> In (Calls.Pset_deflate, Calls.IsNegative) config) /\
    ~ In Calls.Dcreate2 (map fst config).
Proof.
  destruct p as [|z].
  - exists [(Calls.Pset_chunk, Calls.IsNegative); (Calls.Pset_fill_value, Calls.IsNegative)].
    split; [reflexivity|]. cbn. split; [tauto|]. split; [tauto|].
    split; [discriminate|]. intros [H|[H|[]]]; discriminate.
  - exists [(Calls.Pset_chunk, Calls.IsNegative); (Calls.Pset_deflate, Calls.IsNegative);
            (Calls.Pset_fill_value, Calls.IsNegative)].
    split; [reflexivity|]. cbn. split; [tauto|]. split; [tauto|].
    split; [tauto|]. intros [H|[H|[H|[]]]]; discriminate.
Qed.

(** X12.  When [setup] fails, it has made the calls of its body up to the
    first one that fails its test, and after that exactly the five closes of
    the [badness] block, in their order, and nothing else: identifiers never
    created, or already closed on the normal path, are passed to their close
    all the same. *)
Theorem setup_failure_ends_with_the_five_closes (p : Results.program)
  (ret : Calls.h5_call -> Z) :
  fst (Calls.setup p ret) <> 0 ->
  exists pre c t post,
    Calls.setup_body p = pre ++ (c, t) :: post /\
    Forall (fun ct => Calls.failed (snd ct) (ret (fst ct)) = false) pre /\
    Calls.failed t (ret c) = true /\
    snd (Calls.setup p ret)
    = map fst pre ++ [c]
      ++ [Calls.Pclose_fapl; Calls.Fclose_fid; Calls.Sclose_sid; Calls.Pclose_dcpl;
          Calls.Dclose_did].
Proof.
  intros H. destruct (setup_status p ret) as [Es Et]. rewrite Es in H. rewrite Et.
  destruct (fst (Calls.attempt ret (Calls.setup_body p))) eqn:E; [contradiction|].
  destruct (attempt_false ret _ E) as (pre & c & t & post & Hb & Hpre & Hf & Htr).
  exists pre, c, t, post. rewrite Htr, <- app_assoc. repeat split; assumption.
Qed.

Lemma setup_failure_ends_with_the_five_closes_witness :
  let ret := fun c => match c with Calls.Pset_libver_bounds => 1 | _ => 0 end in
  Calls.setup (Results.mt_fill Libc.plentiful) ret
  = (-1, [Calls.Pcreate_fapl; Calls.Pset_libver_bounds;
          Calls.Pclose_fapl; Calls.Fclose_fid; Calls.Sclose_sid; Calls.Pclose_dcpl;
          Calls.Dclose_did]).
Proof.
  cbn zeta.
  set (ret := fun c => match c with Calls.Pset_libver_bounds => 1 | _ => 0 end).
  assert (fst (Calls.setup (Results.mt_fill Libc.plentiful) ret) <> 0) as H
    by (vm_compute; discriminate).
  destruct (setup_failure_ends_with_the_five_closes (Results.mt_fill Libc.plentiful) ret H)
    as (pre & c & t & post & _ & _ & _ & _).
  vm_compute. reflexivity.
Defined.

(** X13.  [setup] calls [H5Dcreate2] only after the file, the dataspace and
    both property lists were created and the chunk dimensions, the fill value
    and, in [Writer], the deflate filter were set without error: the dataset
    is never created from a creation property list that was not fully set
    up. *)
Theorem dataset_created_only_when_configured (p : Results.program)
  (ret : Calls.h5_call -> Z) :
  In Calls.Dcreate2 (snd (Calls.setup p ret)) ->
  ret Calls.Pcreate_fapl <> Calls.H5I_INVALID_HID /\
  ret Calls.Pset_libver_bounds = 0 /\
  ret Calls.Fcreate <> Calls.H5I_INVALID_HID /\
  ret Calls.Screate_simple <> Calls.H5I_INVALID_HID /\
  ret Calls.Pcreate_dcpl <> Calls.H5I_INVALID_HID /\
  0 <= ret Calls.Pset_chunk /\
  0 <= ret Calls.Pset_fill_value /\
  (forall h z, p = Results.writer h z -> 0 <= ret Calls.Pset_deflate).
Proof.
  unfold Calls.setup.
  destruct p as [|z]; cbn [Calls.setup_body Calls.mt_fill_setup_body Calls.writer_setup_body
                            Calls.setup_shutdown app Calls.attempt Calls.failed];
    repeat (match goal with
            | |- context [if ?b then _ else _] => destruct b eqn:?
            end;
            cbn [fst snd app Calls.setup_badness In];
            try (intros H; exfalso; intuition discriminate)).
  all: intros _; repeat split; try lia; try discriminate.
  all: try (intros ? [= <-]); lia.
Qed.

Lemma dataset_created_only_when_configured_witness :
  let ret := fun _ : Calls.h5_call => 0 in
  In Calls.Dcreate2 (snd (Calls.setup (Results.mt_fill Libc.plentiful) ret)) /\
  0 <= ret Calls.Pset_chunk /\ 0 <= ret Calls.Pset_fill_value.
Proof.
  cbn zeta.
  assert (In Calls.Dcreate2 (snd (Calls.setup (Results.mt_fill Libc.plentiful) (fun _ => 0)))) as H
    by (vm_compute; tauto).
  destruct (dataset_created_only_when_configured (Results.mt_fill Libc.plentiful) (fun _ => 0) H)
    as (_ & _ & _ & _ & _ & H1 & H2 & _).
  split; [exact H|]. split; [exact H1|exact H2].
Defined.

Lemma setup_trace_calls (p : Results.program) (ret : Calls.h5_call -> Z) (c : Calls.h5_call) :
  In c (snd (Calls.setup p ret)) ->
  c <> Calls.Fopen /\ c <> Calls.Dopen2 /\ c <> Calls.Fclose_main /\ c <> Calls.Dclose_main.
Proof.
  intros H.
  assert (In c (map fst (Calls.setup_body p)) \/ In c Calls.setup_badness) as H'.
  { destruct (setup_status p ret) as [_ Et]. rewrite Et in H.
    destruct (fst (Calls.attempt ret (Calls.setup_body p))).
    - left. apply (attempt_trace_calls ret), H.
    - apply in_app_or in H. destruct H as [H|H]; [left|right; exact H].
      apply (attempt_trace_calls ret), H. }
  destruct H' as [H'|H'].
  - destruct p; cbn in H'; repeat (destruct H' as [<-|H']; [repeat split; discriminate|]);
      destruct H'.
  - cbn in H'. repeat (destruct H' as [<-|H']; [repeat split; discriminate|]). destruct H'.
Qed.

Lemma setup_ok_trace (p : Results.program) (ret : Calls.h5_call -> Z) :
  (fst (Calls.setup p ret) = 0 \/ fst (Calls.setup p ret) = -1) /\
  (fst (Calls.setup p ret) = 0 -> snd (Calls.setup p ret) = map fst (Calls.setup_body p)).
Proof.
  destruct (setup_status p ret) as [Es Et]. rewrite Es, Et.
  destruct (fst (Calls.attempt ret (Calls.setup_body p))) eqn:E.
  - split; [left; reflexivity|]. intros _. apply attempt_true_trace, E.
  - split; [right; reflexivity|discriminate].
Qed.

Lemma not_in_after_setup (tr0 : list Calls.h5_call) (c : Calls.h5_call) (l : list Calls.h5_call) :
  (forall c', In c' tr0 ->
     c' <> Calls.Fopen /\ c' <> Calls.Dopen2 /\ c' <> Calls.Fclose_main /\
     c' <> Calls.Dclose_main) ->
  (c = Calls.Fclose_main \/ c = Calls.Dclose_main) ->
  In c (tr0 ++ l) -> In c l.
Proof.
  intros H Hc Hin. apply in_app_or in Hin. destruct Hin as [Hin|Hin]; [|exact Hin].
  exfalso. destruct (H _ Hin) as (_ & _ & H3 & H4). destruct Hc; congruence.
Qed.

(** X14.  When [main] has ended, its exit status is [EXIT_SUCCESS] or
    [EXIT_FAILURE].  It is [EXIT_SUCCESS] only if [setup] succeeded, the file
    and the dataset were opened, the loop was left normally, which takes a
    SIGINT, and both closes succeeded; the calls made are then those of
    [setup], the two opens and the two closes.  If a cycle failed, [main]
    returns [EXIT_FAILURE] without closing the file or the dataset; the
    dataset is closed only after the file was closed without error; and if
    [setup] failed nothing is called after it. *)
Theorem main_exit_status (p : Results.program) (ret : Calls.h5_call -> Z)
  (es : list event) (status : Z) (tr : list Calls.h5_call) :
  Calls.main p ret es = Some (status, tr) ->
  (status = Calls.EXIT_SUCCESS \/ status = Calls.EXIT_FAILURE) /\
  (status = Calls.EXIT_SUCCESS ->
     fst (Calls.setup p ret) = 0 /\
     ret Calls.Fopen <> Calls.H5I_INVALID_HID /\ ret Calls.Dopen2 <> Calls.H5I_INVALID_HID /\
     at_pc (Results.run_of p Results.start es) = AtDone /\
     In Sigint es /\
     0 <= ret Calls.Fclose_main /\ 0 <= ret Calls.Dclose_main /\
     tr = map fst (Calls.setup_body p)
          ++ [Calls.Fopen; Calls.Dopen2; Calls.Fclose_main; Calls.Dclose_main]) /\
  (at_pc (Results.run_of p Results.start es) = AtBadness ->
     status = Calls.EXIT_FAILURE /\
     ~ In Calls.Fclose_main tr /\ ~ In Calls.Dclose_main tr) /\
  (In Calls.Dclose_main tr -> In Calls.Fclose_main tr /\ 0 <= ret Calls.Fclose_main) /\
  (fst (Calls.setup p ret) <> 0 -> status = Calls.EXIT_FAILURE /\ tr = snd (Calls.setup p ret)).
Proof.
  unfold Calls.main.
  pose proof (setup_trace_calls p ret) as Hcalls.
  destruct (setup_ok_trace p ret) as [Hr Htr].
  assert (at_pc (Results.run_of p Results.start es) = AtDone -> In Sigint es) as Hsig.
  { rewrite run_of_eq. apply done_needs_sigint. }
  destruct (Calls.setup p ret) as [r tr0]. cbn [fst snd] in *.
  unfold Calls.EXIT_SUCCESS, Calls.EXIT_FAILURE, Calls.H5I_INVALID_HID.
  destruct Hr as [-> | ->]; cbn [Z.ltb Z.compare].
  2: { intros [= <- <-]. split; [right; reflexivity|]. split; [discriminate|].
       split; [|split; [|split; [reflexivity|reflexivity]]].
       - intros _. split; [reflexivity|].
         split; intros H; destruct (Hcalls _ H) as (_ & _ & ? & ?); congruence.
       - intros H. destruct (Hcalls _ H) as (_ & _ & ? & ?); congruence. }
  specialize (Htr eq_refl). subst tr0.
  destruct (ret Calls.Fopen =? -1) eqn:E1.
  { intros [= <- <-]. split; [right; reflexivity|]. split; [discriminate|].
    split; [|split; [|intros H; contradiction]].
    - intros _. split; [reflexivity|].
      split; intros H; apply (not_in_after_setup _ _ _ Hcalls) in H; auto;
        cbn in H; intuition discriminate.
    - intros H. apply (not_in_after_setup _ _ _ Hcalls) in H; auto.
      cbn in H; intuition discriminate. }
  destruct (ret Calls.Dopen2 =? -1) eqn:E2.
  { intros [= <- <-]. split; [right; reflexivity|]. split; [discriminate|].
    split; [|split; [|intros H; contradiction]].
    - intros _. split; [reflexivity|].
      split; intros H; apply (not_in_after_setup _ _ _ Hcalls) in H; auto;
        cbn in H; intuition discriminate.
    - intros H. apply (not_in_after_setup _ _ _ Hcalls) in H; auto.
      cbn in H; intuition discriminate. }
  destruct (at_pc (Results.run_of p Results.start es)) eqn:Epc; try discriminate.
  - destruct (ret Calls.Fclose_main <? 0) eqn:E3;
      [|destruct (ret Calls.Dclose_main <? 0) eqn:E4]; intros [= <- <-].
    + split; [right; reflexivity|]. split; [discriminate|]. split; [discriminate|].
      split; [|intros H; contradiction].
      intros H. rewrite <- app_assoc in H. apply (not_in_after_setup _ _ _ Hcalls) in H; auto.
      cbn in H; intuition discriminate.
    + split; [right; reflexivity|]. split; [discriminate|]. split; [discriminate|].
      split; [|intros H; contradiction].
      intros _. split; [|lia]. apply in_or_app. right. cbn. tauto.
    + split; [left; reflexivity|]. split; [|split; [discriminate|split; [|intros H; contradiction]]].
      * intros _. rewrite <- app_assoc. repeat split; try lia; auto.
      * intros _. split; [|lia]. apply in_or_app. right. cbn. tauto.
  - intros [= <- <-]. split; [right; reflexivity|]. split; [discriminate|].
    split; [|split; [|intros H; contradiction]].
    + intros _. split; [reflexivity|].
      split; intros H; apply (not_in_after_setup _ _ _ Hcalls) in H; auto;
        cbn in H; intuition discriminate.
    + intros H. apply (not_in_after_setup _ _ _ Hcalls) in H; auto.
      cbn in H; intuition discriminate.
Qed.

Lemma main_exit_status_witness :
  let ret := fun _ : Calls.h5_call => 0 in
  let es := [Tick; Tick; Tick; Sigint; Tick; Tick] in
  exists tr,
    Calls.main (Results.mt_fill Libc.plentiful) ret es = Some (Calls.EXIT_SUCCESS, tr) /\
    In Sigint es /\ length tr = 17%nat.
Proof.
  cbn zeta. eexists.
  assert (Calls.main (Results.mt_fill Libc.plentiful) (fun _ => 0)
            [Tick; Tick; Tick; Sigint; Tick; Tick]
          = Some (Calls.EXIT_SUCCESS,
                  map fst (Calls.setup_body (Results.mt_fill Libc.plentiful))
                  ++ [Calls.Fopen; Calls.Dopen2; Calls.Fclose_main; Calls.Dclose_main])) as E
    by (vm_compute; reflexivity).
  split; [exact E|].
  destruct (main_exit_status _ _ _ _ _ E) as (_ & H & _).
  destruct (H eq_refl) as (_ & _ & _ & _ & Hs & _).
  split; [exact Hs|reflexivity].
Defined.
